(** * EEG preprocessing pipeline: a shallow embedding of
      [preprocessing/pipeline.py] and [preprocessing/visualizer.py]

    The pipeline is Python code that drives two libraries (MNE for the signal
    processing, plotly for the figures) over mutable objects and the file
    system.  The embedding keeps that shape:

    - objects ([Raw], [ICA], [Epochs]) live in a store addressed by
      references, so that in-place methods ([raw.filter], [ica.exclude = ..],
      [set_meas_date]) and [raw.copy()] read as they do in the source;
    - every statement runs in a state-and-exception monad over a [world]
      (object store, file system, log of library calls); an exception keeps
      the effects done before it, as in Python;
    - the numerical kernels of MNE (decoding, FIR filtering, ICA fitting, EOG
      scoring, back-projection) are an interface [MNE]: the statements hold
      for every implementation of it, and a small executable instance is used
      to run the model on concrete recordings;
    - samples are rationals standing for float64 values; rounding error is
      not modelled, except where the code turns a float into a count
      ([int(duration * sfreq)]): there the product is rounded as float64
      multiplication rounds it.

    Of the web application [app.py] the embedding has what is code of its
    own: the upload allow-list, the retention sweep and the [try] block of
    the results page.  The Flask routing is not modelled. *)

From Stdlib Require Import ZArith QArith Qabs Qpower String Ascii List Lia.
From stdpp Require Import base strings gmap list pretty.
Import ListNotations.

Local Open Scope Z_scope.
Local Open Scope string_scope.

(** ** Paths and extensions *)

Module Path.

(** [str.lower] on the ASCII range; other bytes are left as they are. *)
Definition lower_char (c : ascii) : ascii :=
  let n := nat_of_ascii c in
  if ((65 <=? n) && (n <=? 90))%nat then ascii_of_nat (n + 32) else c.

Fixpoint lower (s : string) : string :=
  match s with
  | EmptyString => EmptyString
  | String c s' => String (lower_char c) (lower s')
  end.

(** [s.rfind(c)]: the highest index holding [c], or [-1]. *)
Fixpoint rfind_from (c : ascii) (s : string) (i acc : Z) : Z :=
  match s with
  | EmptyString => acc
  | String a s' => rfind_from c s' (i + 1) (if Ascii.eqb a c then i else acc)
  end.

Definition rfind (c : ascii) (s : string) : Z := rfind_from c s 0 (-1).

(** The [while] loop of [genericpath._splitext]: is there, among the [n]
    characters from [filenameIndex] on, one that is not a dot? *)
Fixpoint has_non_dot (p : string) (filenameIndex n : nat) : bool :=
  match n with
  | O => false
  | S n' =>
      match String.get filenameIndex p with
      | Some c => if Ascii.eqb c "." then has_non_dot p (S filenameIndex) n' else true
      | None => true
      end
  end.

(** [os.path.splitext] (posixpath: separator [/], no alternative separator). *)
Definition splitext (p : string) : string * string :=
  let sepIndex := rfind "/" p in
  let dotIndex := rfind "." p in
  if (sepIndex <? dotIndex)%Z
     && has_non_dot p (Z.to_nat (sepIndex + 1)) (Z.to_nat (dotIndex - (sepIndex + 1)))
  then (substring 0 (Z.to_nat dotIndex) p,
        substring (Z.to_nat dotIndex) (String.length p - Z.to_nat dotIndex) p)
  else (p, "").

(** [os.path.splitext(input_path)[1].lower()] *)
Definition extension (p : string) : string := lower (snd (splitext p)).

End Path.

(** ** Numbers

    A sample is a rational.  [int(x)] truncates toward zero; [round] and
    [numpy.round] round to nearest, ties to even. *)

Definition matrix := list (list Q).

Definition Qtrunc (x : Q) : Z := Z.quot (Qnum x) (Zpos (Qden x)).

Definition Qround (x : Q) : Z :=
  let d := Zpos (Qden x) in
  let fl := Qnum x / d in
  let r := Qnum x mod d in
  match 2 * r ?= d with
  | Lt => fl
  | Gt => fl + 1
  | Eq => if Z.even fl then fl else fl + 1
  end.

Definition Qceil (x : Q) : Z := - ((- Qnum x) / Zpos (Qden x)).

Definition Qsum (xs : list Q) : Q := fold_right Qplus (0 # 1)%Q xs.

(** *** Products in float64

    [int(duration * sfreq)] depends on how the product is rounded: with
    [sfreq = 250.1] and [duration = 10] the exact product of the float64
    operands is just below 2501, and the float64 product is 2501.  [float64]
    takes a number to the nearest number with 53 significant bits, ties to
    even: what the conversion of a Python int to float does, and what IEEE
    754 multiplication does to the exact product of its operands; it leaves a
    float64 value as it is.  The exponent range is left out: no overflow to
    infinity (above about 1.8e308) and no subnormal numbers. *)

(** [floor(log2 |x|)], for [x] other than 0: the quotient of two numbers of
    [a] and [b] bits lies between [2^(a-b-1)] and [2^(a-b+1)]. *)
Definition Qlog2 (x : Q) : Z :=
  let k := Z.log2 (Z.abs (Qnum x)) - Z.log2 (Zpos (Qden x)) in
  if Qle_bool (2 ^ k) (Qabs x) then k else k - 1.

Definition float64 (x : Q) : Q :=
  if Qeq_bool x 0 then x
  else let ulp := (2 ^ (Qlog2 x - 52))%Q in
       Qred (inject_Z (Qround (x / ulp)) * ulp).

(** [a * b] on Python numbers of which one is a float. *)
Definition float_mul (a b : Q) : Q := float64 (float64 a * float64 b).

(** A cell of an exported text matrix: [numpy.mean] over no value is [nan]. *)
Inductive cell := Num (q : Q) | NaN.

Definition np_mean (xs : list Q) : cell :=
  match xs with
  | [] => NaN
  | _ => Num (Qsum xs / inject_Z (Z.of_nat (length xs)))%Q
  end.

(** ** Data model *)

Inductive ch_kind := EEG | EOG | ECG | EMG | STIM | MISC.

Record channel := mkChannel { ch_name : string; kind : ch_kind }.

(** [mne.io.Raw]: [info] (channels, bad channel names, sampling rate,
    measurement date) and the channels x samples array. *)
Record Raw := mkRaw {
  chs : list channel;
  bads : list string;
  sfreq : Q;
  data : matrix;
  meas_date : option Z
}.

Definition ch_names (r : Raw) : list string := map ch_name (chs r).

(** [raw.n_times]: the second dimension of the array. *)
Definition n_times (r : Raw) : nat :=
  match data r with
  | [] => O
  | row :: _ => length row
  end.

Record ICA_fit := mkFit { unmixing : matrix; mixing : matrix }.

(** [mne.preprocessing.ICA]: constructor arguments, the fitted transforms
    once [fit] has run, and the mutable [exclude] attribute. *)
Record ICA := mkICA {
  ica_n_components : Z;
  random_state : Z;
  solution : option ICA_fit;
  exclude : list nat
}.

(** [mne.Epochs] with [preload=True]: the windows kept, each a
    channels x samples array; [ep_shape] is the shape of one window. *)
Record Epochs := mkEpochs {
  ep_chs : list channel;
  ep_sfreq : Q;
  ep_events : list Z;
  ep_shape : nat * nat;
  ep_data : list matrix;
  ep_meas_date : option Z
}.

Inductive obj :=
| ORaw (r : Raw)
| OICA (i : ICA)
| OEpochs (e : Epochs).

Record Scatter := mkScatter {
  x : option (list Q);
  y : list Q;
  mode : string;
  name : string
}.

Record Figure := mkFigure {
  traces : list Scatter;
  title : string;
  xaxis_title : string;
  yaxis_title : string
}.

(** What a path of the file system holds. *)
Inductive file :=
| Upload (bytes : string)
| FifRaw (r : Raw)
| FifEpochs (e : Epochs)
| Csv (m : list (list cell))
| Html (f : Figure).

(** ** Worlds, exceptions and the monad *)

Definition ref := nat.

(** Calls into the libraries, in the order they are made. *)
Inductive call :=
| CallRead (codec path : string)
| CallFilter (inst : ref) (l_freq h_freq : Q)
| CallICA (n_components random_state : Z)
| CallFit (ica inst : ref)
| CallFindBadsEog (ica inst : ref)
| CallApply (ica inst : ref)
| CallEvents (inst : ref) (duration : Q)
| CallEpochs (inst : ref) (tmin tmax : Q)
| CallSave (path : string)
| CallSavetxt (path : string)
| CallGetSources (ica inst : ref)
| CallWriteHtml (path : string).

Record world := mkWorld {
  store : gmap nat obj;
  next : ref;
  fs : gmap string file;
  log : list call
}.

(** Exceptions.  Those raised inside a library call are kept apart
    ([MNEError]) from those the repository's code raises itself. *)
Definition mne_error := string.

Inductive exn :=
| ValueError (msg : string)
| IndexError
| AttributeError
| FileNotFoundError
| MNEError (e : mne_error).

Inductive outcome (A : Type) :=
| Ok (a : A)
| Raise (e : exn).
Arguments Ok {A} a.
Arguments Raise {A} e.

Definition M (A : Type) : Type := world -> outcome A * world.

Definition ret {A} (a : A) : M A := fun w => (Ok a, w).

Definition raise {A} (e : exn) : M A := fun w => (Raise e, w).

Definition bind {A B} (m : M A) (k : A -> M B) : M B :=
  fun w =>
    match m w with
    | (Ok a, w') => k a w'
    | (Raise e, w') => (Raise e, w')
    end.

(** [try: m except Exception: h] *)
Definition try_except {A} (m : M A) (h : exn -> M A) : M A :=
  fun w =>
    match m w with
    | (Ok a, w') => (Ok a, w')
    | (Raise e, w') => h e w'
    end.

Declare Scope py_scope.
Delimit Scope py_scope with py.
Notation "v <- m ;; k" := (bind m (fun v => k))
  (at level 100, m at next level, right associativity) : py_scope.
Notation "m ;; k" := (bind m (fun _ => k))
  (at level 100, right associativity) : py_scope.
Local Open Scope py_scope.

Definition alloc (o : obj) : M ref :=
  fun w => (Ok (next w),
            mkWorld (<[next w := o]> (store w)) (S (next w)) (fs w) (log w)).

Definition load (r : ref) : M obj :=
  fun w =>
    match store w !! r with
    | Some o => (Ok o, w)
    | None => (Raise AttributeError, w)
    end.

Definition assign (r : ref) (o : obj) : M unit :=
  fun w => (Ok tt, mkWorld (<[r := o]> (store w)) (next w) (fs w) (log w)).

Definition called (c : call) : M unit :=
  fun w => (Ok tt, mkWorld (store w) (next w) (fs w) (log w ++ [c])).

Definition lift {A} (r : mne_error + A) : M A :=
  match r with
  | inl e => raise (MNEError e)
  | inr a => ret a
  end.

Definition load_raw (r : ref) : M Raw :=
  o <- load r ;;
  match o with
  | ORaw v => ret v
  | _ => raise AttributeError
  end.

Definition load_ica (r : ref) : M ICA :=
  o <- load r ;;
  match o with
  | OICA v => ret v
  | _ => raise AttributeError
  end.

Definition read_file (path : string) : M file :=
  fun w =>
    match fs w !! path with
    | Some f => (Ok f, w)
    | None => (Raise FileNotFoundError, w)
    end.

(** [l[i]] for [0 <= i]. *)
Definition index {A} (l : list A) (i : nat) : M A :=
  match l !! i with
  | Some a => ret a
  | None => raise IndexError
  end.

(** [l[:stop]] *)
Definition slice_to {A} (stop : Z) (l : list A) : list A :=
  if (0 <=? stop)%Z then firstn (Z.to_nat stop) l
  else firstn (length l - Z.to_nat (- stop)) l.

(** ** MNE functions with fixed, documented behaviour *)

(** [mne.pick_types(info, eog=True)]: every other channel type is off by
    default and [exclude='bads'], so the picks are the indices of the EOG
    channels that are not marked bad. *)
Definition is_eog (k : ch_kind) : bool :=
  match k with
  | EOG => true
  | _ => false
  end.

Definition pick_types_eog (r : Raw) : list nat :=
  map fst
    (filter (fun ic : nat * channel =>
               is_eog (kind ic.2) && negb (bool_decide (ch_name ic.2 ∈ bads r)))
            (zip (seq 0 (length (chs r))) (chs r))).

(** [mne.make_fixed_length_events(raw, duration=d)] with [start=0],
    [overlap=0] and a recording whose first sample is sample 0:
    [stop = n_times - round(sfreq * d)], and the events are
    [arange(0, stop + 1, sfreq * d).astype(int)]. *)
Definition fixed_length_events (n : nat) (sf duration : Q) : mne_error + list Z :=
  if Qle_bool duration 0
  then inl "ValueError: overlap must be >=0 but < duration"
  else
    let step := (sf * duration)%Q in
    let stop := Z.of_nat n - Qround step in
    let count := Z.to_nat (Qceil (inject_Z (stop + 1) / step)%Q) in
    match count with
    | O => inl "ValueError: No events produced, check the values of start, stop, and duration"
    | _ => inr (map (fun k => Qtrunc (inject_Z (Z.of_nat k) * step)%Q) (seq 0 count))
    end.

(** [mne.Epochs(raw, events, tmin, tmax, baseline=None, preload=True)]:
    the samples of a window are those from [round(tmin * sfreq)] to
    [round(tmax * sfreq)], both included; a window that starts before the
    recording is dropped (NO_DATA), and so is one that runs past its end
    (TOO_SHORT).  Annotations, projections and decimation are left out. *)
Definition window_first (sf tmin : Q) : Z := Qround (tmin * sf)%Q.

Definition window_samples (sf tmin tmax : Q) : nat :=
  Z.to_nat (Qround (tmax * sf)%Q + 1 - window_first sf tmin).

Definition cut_window (d : matrix) (start : Z) (n : nat) : option matrix :=
  if (start <? 0)%Z then None
  else
    let seg := map (fun row => firstn n (skipn (Z.to_nat start) row)) d in
    if forallb (fun row => (n <=? length row)%nat) seg then Some seg else None.

Definition epochs_of (r : Raw) (events : list Z) (tmin tmax : Q) : Epochs :=
  let n := window_samples (sfreq r) tmin tmax in
  let first := window_first (sfreq r) tmin in
  let kept :=
    omap (fun ev => option_map (fun seg => (ev, seg)) (cut_window (data r) (ev + first) n))
         events in
  mkEpochs (chs r) (sfreq r) (map fst kept) (length (data r), n) (map snd kept)
           (meas_date r).

(** [a.mean(axis=0)] on an array of shape (windows, channels, samples). *)
Definition mean_axis0 (a : (nat * nat) * list matrix) : list (list cell) :=
  map (fun c =>
         map (fun t => np_mean (map (fun w => nth t (nth c w []) (0 # 1)%Q) a.2))
             (seq 0 a.1.2))
      (seq 0 a.1.1).

(** [raw[:n_channels, :stop]]: the sub-array and the matching times. *)
Definition raw_getitem (r : Raw) (n_channels : nat) (stop : Z) : matrix * list Q :=
  (map (slice_to stop) (firstn n_channels (data r)),
   slice_to stop (map (fun i => (inject_Z (Z.of_nat i) / sfreq r)%Q) (seq 0 (n_times r)))).

(** ** The numerical kernels, as an interface *)

Class MNE := {
  decode_edf : file -> mne_error + Raw;
  decode_fif : file -> mne_error + Raw;
  (** the band-limited FIR filter: the new array *)
  fir_filter : Q -> Q -> Raw -> mne_error + matrix;
  (** number of components, seed, recording *)
  fastica : Z -> Z -> Raw -> mne_error + ICA_fit;
  (** indices of the components scored as ocular, and the scores *)
  eog_scores : ICA_fit -> Raw -> mne_error + (list nat * list Q);
  (** unmix, zero the excluded components, remix: the new array *)
  back_project : ICA_fit -> list nat -> Raw -> mne_error + matrix;
  (** the source time series *)
  unmix : ICA_fit -> Raw -> mne_error + matrix;
  (** whether writing to a path fails *)
  write_error : string -> option mne_error
}.

Section Pipeline.

Context {lib : MNE}.

Definition write (path : string) (f : file) : M unit :=
  match write_error path with
  | Some e => raise (MNEError e)
  | None =>
      fun w => (Ok tt, mkWorld (store w) (next w) (<[path := f]> (fs w)) (log w))
  end.

(** A reader with [preload=True]: the file is opened, decoded by the codec
    and the recording becomes a new [Raw] object. *)
Definition read_raw (codec : string) (decode : file -> mne_error + Raw)
    (path : string) : M ref :=
  called (CallRead codec path) ;;
  f <- read_file path ;;
  raw <- lift (decode f) ;;
  alloc (ORaw raw).

(** [mne.io.read_raw_edf(path, preload=True)] *)
Definition read_raw_edf (path : string) : M ref := read_raw "edf" decode_edf path.

(** [mne.io.read_raw_fif(path, preload=True)] *)
Definition read_raw_fif (path : string) : M ref := read_raw "fif" decode_fif path.

Definition with_data (r : Raw) (d : matrix) : Raw :=
  mkRaw (chs r) (bads r) (sfreq r) d (meas_date r).

(** [inst.filter(l_freq, h_freq, fir_design='firwin')]: filters the
    instance's own array and returns the instance. *)
Definition raw_filter (inst : ref) (l_freq h_freq : Q) : M ref :=
  called (CallFilter inst l_freq h_freq) ;;
  r <- load_raw inst ;;
  d <- lift (fir_filter l_freq h_freq r) ;;
  assign inst (ORaw (with_data r d)) ;;
  ret inst.

(** [mne.preprocessing.ICA(n_components=n, random_state=seed, max_iter='auto')] *)
Definition ICA_new (n seed : Z) : M ref :=
  called (CallICA n seed) ;;
  alloc (OICA (mkICA n seed None [])).

(** [ica.fit(inst)] *)
Definition ica_fit (ica inst : ref) : M ref :=
  called (CallFit ica inst) ;;
  i <- load_ica ica ;;
  r <- load_raw inst ;;
  s <- lift (fastica (ica_n_components i) (random_state i) r) ;;
  assign ica (OICA (mkICA (ica_n_components i) (random_state i) (Some s) (exclude i))) ;;
  ret ica.

Definition fitted (i : ICA) : M ICA_fit :=
  match solution i with
  | Some s => ret s
  | None => raise (MNEError "RuntimeError: No fit available")
  end.

(** [ica.find_bads_eog(inst)] *)
Definition find_bads_eog (ica inst : ref) : M (list nat * list Q) :=
  called (CallFindBadsEog ica inst) ;;
  i <- load_ica ica ;;
  r <- load_raw inst ;;
  s <- fitted i ;;
  lift (eog_scores s r).

(** [ica.exclude = l] *)
Definition set_exclude (ica : ref) (l : list nat) : M unit :=
  i <- load_ica ica ;;
  assign ica (OICA (mkICA (ica_n_components i) (random_state i) (solution i) l)).

(** [ica.exclude] *)
Definition get_exclude (ica : ref) : M (list nat) :=
  i <- load_ica ica ;;
  ret (exclude i).

(** [inst.copy()] *)
Definition raw_copy (inst : ref) : M ref :=
  r <- load_raw inst ;;
  alloc (ORaw r).

(** [ica.apply(inst)]: rewrites the instance's array, with the components
    of [ica.exclude] zeroed, and returns the instance. *)
Definition ica_apply (ica inst : ref) : M ref :=
  called (CallApply ica inst) ;;
  i <- load_ica ica ;;
  r <- load_raw inst ;;
  s <- fitted i ;;
  d <- lift (back_project s (exclude i) r) ;;
  assign inst (ORaw (with_data r d)) ;;
  ret inst.

(** [mne.make_fixed_length_events(inst, duration=d)] *)
Definition make_fixed_length_events (inst : ref) (duration : Q) : M (list Z) :=
  called (CallEvents inst duration) ;;
  r <- load_raw inst ;;
  lift (fixed_length_events (n_times r) (sfreq r) duration).

(** [mne.Epochs(inst, events, tmin=.., tmax=.., baseline=None, preload=True)] *)
Definition Epochs_new (inst : ref) (events : list Z) (tmin tmax : Q) : M ref :=
  called (CallEpochs inst tmin tmax) ;;
  r <- load_raw inst ;;
  alloc (OEpochs (epochs_of r events tmin tmax)).

(** [inst.set_meas_date(None)] *)
Definition set_meas_date_none (inst : ref) : M unit :=
  o <- load inst ;;
  match o with
  | ORaw r => assign inst (ORaw (mkRaw (chs r) (bads r) (sfreq r) (data r) None))
  | OEpochs e =>
      assign inst (OEpochs (mkEpochs (ep_chs e) (ep_sfreq e) (ep_events e) (ep_shape e)
                                     (ep_data e) None))
  | OICA _ => raise AttributeError
  end.

(** [inst.save(path, overwrite=True)] *)
Definition save (inst : ref) (path : string) : M unit :=
  called (CallSave path) ;;
  o <- load inst ;;
  match o with
  | ORaw r => write path (FifRaw r)
  | OEpochs e => write path (FifEpochs e)
  | OICA _ => raise AttributeError
  end.

(** [inst.get_data()] on a [Raw] *)
Definition raw_get_data (inst : ref) : M matrix :=
  r <- load_raw inst ;;
  ret (data r).

(** [inst.get_data()] on an [Epochs]: the array with its window shape *)
Definition epochs_get_data (inst : ref) : M ((nat * nat) * list matrix) :=
  o <- load inst ;;
  match o with
  | OEpochs e => ret (ep_shape e, ep_data e)
  | _ => raise AttributeError
  end.

(** [np.savetxt(path, m, delimiter=',')] *)
Definition savetxt (path : string) (m : list (list cell)) : M unit :=
  called (CallSavetxt path) ;;
  write path (Csv m).

(** *** [preprocessing/pipeline.py] *)

Definition preprocess_eeg (input_path fif_out_path csv_out_path : string)
    (l_freq h_freq : Q) (n_components : Z) (epoch : bool) (epoch_length : Q)
  : M (ref * ref * ref * list nat) :=
  let ext := Path.lower (Path.splitext input_path).2 in
  raw <- (if String.eqb ext ".edf" then read_raw_edf input_path
          else if String.eqb ext ".fif" then read_raw_fif input_path
          else raise (ValueError "Unsupported file format")) ;;
  raw_filter raw l_freq h_freq ;;
  names <- (r <- load_raw raw ;; ret (ch_names r)) ;;
  let n_chan := Z.of_nat (length names) in
  let n_ica := Z.min n_components n_chan in
  ica <- ICA_new n_ica 97 ;;
  ica_fit ica raw ;;
  eog_chs <- (r <- load_raw raw ;; ret (pick_types_eog r)) ;;
  (if (0 <? length eog_chs)%nat
   then try_except
          (res <- find_bads_eog ica raw ;;
           set_exclude ica res.1)
          (fun _ => set_exclude ica [])
   else set_exclude ica []) ;;
  copy <- raw_copy raw ;;
  cleaned <- ica_apply ica copy ;;
  cleaned <- (if epoch
              then events <- make_fixed_length_events cleaned epoch_length ;;
                   Epochs_new cleaned events 0 epoch_length
              else ret cleaned) ;;
  o <- load cleaned ;;
  match o with
  | ORaw _ =>
      set_meas_date_none cleaned ;;
      save cleaned fif_out_path ;;
      d <- raw_get_data cleaned ;;
      savetxt csv_out_path (map (map Num) d)
  | OEpochs _ =>
      set_meas_date_none cleaned ;;
      save cleaned fif_out_path ;;
      d <- epochs_get_data cleaned ;;
      savetxt csv_out_path (mean_axis0 d)
  | OICA _ => ret tt
  end ;;
  excl <- get_exclude ica ;;
  ret (raw, cleaned, ica, excl).

(** *** [preprocessing/visualizer.py] *)

(** [for a in l: s = body(s, a)] *)
Fixpoint for_each {A S : Type} (body : S -> A -> M S) (l : list A) (s : S) : M S :=
  match l with
  | [] => ret s
  | a :: l' => s' <- body s a ;; for_each body l' s'
  end.

(** [fig.write_html(path)] *)
Definition write_html (fig : Figure) (path : string) : M unit :=
  called (CallWriteHtml path) ;;
  write path (Html fig).

Definition offset_by (step : Z) (i : nat) (row : list Q) : list Q :=
  map (fun v => (v + inject_Z (Z.of_nat i * step))%Q) row.

Definition plot_raw_signal (raw : ref) (out_html_path : string)
    (duration : Q) (n_channels : nat) : M unit :=
  r <- load_raw raw ;;
  let data_times := raw_getitem r n_channels (Qtrunc (float_mul duration (sfreq r))) in
  fig <- for_each
           (fun fig i =>
              row <- index data_times.1 i ;;
              nm <- index (ch_names r) i ;;
              ret (fig ++ [mkScatter (Some data_times.2) (offset_by 100 i row) "lines" nm])%list)
           (seq 0 n_channels) [] ;;
  write_html (mkFigure fig "Raw EEG Signal (first 5 channels, 10s)"
                       "Time (s)" "Amplitude + offset")
             out_html_path.

(** [ica.get_sources(inst).get_data()] *)
Definition get_sources_data (ica inst : ref) : M matrix :=
  called (CallGetSources ica inst) ;;
  i <- load_ica ica ;;
  r <- load_raw inst ;;
  s <- fitted i ;;
  lift (unmix s r).

Definition plot_ica_components (ica raw : ref) (out_html_path : string)
    (n_components : nat) : M unit :=
  sources <- get_sources_data ica raw ;;
  let offset := 200 in
  fig <- for_each
           (fun fig i =>
              row <- index sources i ;;
              ret (fig ++ [mkScatter None (offset_by offset i row) "lines"
                                     ("ICA " +:+ pretty (i + 1)%nat)])%list)
           (seq 0 (Nat.min n_components (length sources))) [] ;;
  write_html (mkFigure fig "ICA Components (first 10)" "Samples" "Amplitude + offset")
             out_html_path.

(** *** Vocabulary of the statements *)

(** The recording the entry point gets from a path, when it gets one. *)
Definition recording_at (path : string) (w : world) : option Raw :=
  match fs w !! path with
  | None => None
  | Some f =>
      let ext := Path.extension path in
      if String.eqb ext ".edf"
      then match decode_edf f with inr r => Some r | inl _ => None end
      else if String.eqb ext ".fif"
      then match decode_fif f with inr r => Some r | inl _ => None end
      else None
  end.

(** The reading of the filter stage as a function that leaves its input
    alone: the series a run returns first still holds the signal as read. *)
Definition returns_unfiltered_raw (input_path fif_out_path csv_out_path : string)
    (l_freq h_freq : Q) (n_components : Z) (epoch : bool) (epoch_length : Q)
    (w : world) : Prop :=
  let res := preprocess_eeg input_path fif_out_path csv_out_path l_freq h_freq
                            n_components epoch epoch_length w in
  forall raw0 raw cleaned ica excl,
    recording_at input_path w = Some raw0 ->
    res.1 = Ok (raw, cleaned, ica, excl) ->
    exists v, store res.2 !! raw = Some (ORaw v) /\ data v = data raw0.

End Pipeline.

(** The calls a computation adds to the log. *)
Definition calls_of {A} (m : M A) (w : world) : list call :=
  drop (length (log w)) (log (m w).2).

(** The run stopped on the unsupported-format error. *)
Definition unsupported {A} (r : outcome A * world) : Prop :=
  r.1 = Raise (ValueError "Unsupported file format").

(** What a caller can observe of a finished run: the objects behind the
    returned references, the exclude list, and the two exports. *)
Definition snapshot (fif_out_path csv_out_path : string)
    (r : outcome (ref * ref * ref * list nat) * world) :=
  match r.1 with
  | Ok (raw, cleaned, ica, excl) =>
      Ok (store r.2 !! raw, store r.2 !! cleaned, store r.2 !! ica, excl,
          fs r.2 !! fif_out_path, fs r.2 !! csv_out_path)
  | Raise e => Raise e
  end.

(** The exceptions a computation can end with. *)
Definition raises_only {A} (P : exn -> Prop) (m : M A) : Prop :=
  forall w e w', m w = (Raise e, w') -> P e.

Definition from_below (e : exn) : Prop :=
  match e with
  | ValueError _ | IndexError => False
  | _ => True
  end.

(** ** An executable instance of the interface

    Enough of MNE to run the definitions above on small recordings: a stored
    recording decodes to itself, the filter removes each channel's mean (what
    a band-pass does to the constant part of a signal), the decomposition is
    the identity, and scoring against a flat reference channel fails. *)

Module Sim.

Definition decode (f : file) : mne_error + Raw :=
  match f with
  | FifRaw r => inr r
  | _ => inl "ValueError: not a recording"
  end.

Definition remove_mean (row : list Q) : list Q :=
  match np_mean row with
  | Num m => map (fun v => Qred (v - m)) row
  | NaN => row
  end.

Definition identity_fit : ICA_fit := mkFit [] [].

Definition constant (row : list Q) : bool :=
  match row with
  | [] => true
  | v :: rest => forallb (Qeq_bool v) rest
  end.

Definition score (s : ICA_fit) (r : Raw) : mne_error + (list nat * list Q) :=
  match pick_types_eog r with
  | [] => inl "RuntimeError: No EOG channel(s) found"
  | c :: _ =>
      if constant (nth c (data r) [])
      then inl "FloatingPointError: zero variance"
      else inr ([c], [])
  end.

Definition zero_rows (excl : list nat) (d : matrix) : matrix :=
  map (fun ic : nat * list Q =>
         if bool_decide (ic.1 ∈ excl) then map (fun _ => (0 # 1)%Q) ic.2 else ic.2)
      (zip (seq 0 (length d)) d).

#[export] Instance lib : MNE := {|
  decode_edf := decode;
  decode_fif := decode;
  fir_filter := fun _ _ r => inr (map remove_mean (data r));
  fastica := fun n _ _ =>
    if (n <=? 0)%Z then inl "ValueError: n_components" else inr identity_fit;
  eog_scores := score;
  back_project := fun _ excl r => inr (zero_rows excl (data r));
  unmix := fun _ r => inr (data r);
  write_error := fun p => if String.eqb p "" then Some "OSError: empty path" else None
|}.

(** Sample [t] of channel [c] of the synthetic recordings. *)
Definition wave (c t : nat) : Q := inject_Z (Z.of_nat ((t * (c + 1)) mod 7)%nat - 3).

Definition synth (kinds : list ch_kind) (sf : Z) (samples : nat) : Raw :=
  mkRaw
    (map (fun ik : nat * ch_kind => mkChannel ("CH" +:+ pretty ik.1) ik.2)
         (zip (seq 0 (length kinds)) kinds))
    [] (inject_Z sf)
    (map (fun ik : nat * ch_kind =>
            map (fun t => match ik.2 with EOG => (1 # 1)%Q | _ => wave ik.1 t end)
                (seq 0 samples))
         (zip (seq 0 (length kinds)) kinds))
    (Some 1700000000).

(** 4 EEG channels, 250 Hz, 5 s. *)
Definition rec4 : Raw := synth [EEG; EEG; EEG; EEG] 250 1250.

(** 2 EEG channels, 250 Hz, 10 s. *)
Definition rec10s : Raw := synth [EEG; EEG] 250 2500.

(** 2 EEG channels and a flat EOG channel, 250 Hz, 1 s. *)
Definition rec_eog : Raw := synth [EEG; EEG; EOG] 250 250.

Definition disk (path : string) (r : Raw) : world :=
  mkWorld ∅ 0%nat {[ path := FifRaw r ]} [].

End Sim.

(** ** The web application, [app.py] *)

Module App.

Definition UPLOAD_FOLDER : string := "uploads".
Definition OUTPUT_FOLDER : string := "output".
Definition ALLOWED_EXTENSIONS : list string := ["edf"; "fif"].

(** [c in s] *)
Fixpoint contains (c : ascii) (s : string) : bool :=
  match s with
  | EmptyString => false
  | String a s' => Ascii.eqb a c || contains c s'
  end.

(** [s.rsplit(c, 1)] *)
Definition rsplit1 (c : ascii) (s : string) : list string :=
  let i := Path.rfind c s in
  if (i <? 0)%Z then [s]
  else [substring 0 (Z.to_nat i) s;
        substring (Z.to_nat i + 1) (String.length s - (Z.to_nat i + 1)) s].

(** [allowed_file]: the subscript [[1]] raises [IndexError] on a list of one
    element; the test on the left of [and] decides whether it is reached. *)
Definition allowed_file (filename : string) : outcome bool :=
  if contains "." filename
  then match rsplit1 "." filename !! 1%nat with
       | Some ext => Ok (bool_decide (Path.lower ext ∈ ALLOWED_EXTENSIONS))
       | None => Raise IndexError
       end
  else Ok false.

Definition startswith (c : ascii) (s : string) : bool :=
  match s with
  | String a _ => Ascii.eqb a c
  | EmptyString => false
  end.

Fixpoint endswith (c : ascii) (s : string) : bool :=
  match s with
  | EmptyString => false
  | String a EmptyString => Ascii.eqb a c
  | String _ s' => endswith c s'
  end.

(** [os.path.join(a, b)] (posixpath) *)
Definition join (a b : string) : string :=
  if startswith "/" b then b
  else if (String.length a =? 0)%nat || endswith "/" a then a ++ b
  else a ++ "/" ++ b.

(** The name of a file has a stem: something other than dots comes before
    its last dot. *)
Definition has_stem (filename : string) : bool :=
  Path.has_non_dot filename 0 (Z.to_nat (Path.rfind "." filename)).

(** *** Retention sweep *)

(** What [cleanup_old_files] sees of a folder entry: whether it is a
    regular file, when it was last modified, and whether [os.remove] on it
    succeeds. *)
Record entry := mkEntry { is_file : bool; mtime : Q; removable : bool }.

Definition Qltb (a b : Q) : bool := negb (Qle_bool b a).

(** [os.listdir(folder)] *)
Definition listdir (folder : gmap string entry) : list string :=
  (map_to_list folder).*1.

(** The body of the loop of [cleanup_old_files], on the names deleted so
    far and the folder as it is. *)
Definition cleanup_step (now max_age : Q) (st : list string * gmap string entry)
    (fname : string) : list string * gmap string entry :=
  match st.2 !! fname with
  | Some e =>
      if is_file e
      then if Qltb max_age (now - mtime e)%Q
           then if removable e
                then ((st.1 ++ [fname])%list, delete fname st.2)
                else st
           else st
      else st
  | None => st
  end.

(** [cleanup_old_files(folder, max_age_hours)] at time [now]: the names
    deleted and the folder afterwards. *)
Definition cleanup_old_files (now : Q) (folder : gmap string entry) (max_age_hours : Q)
  : list string * gmap string entry :=
  let max_age := (max_age_hours * 3600)%Q in
  fold_left (cleanup_step now max_age) (listdir folder) ([], folder).

(** An entry the sweep is to remove, and can. *)
Definition expired (now max_age_hours : Q) (e : entry) : bool :=
  is_file e && Qltb (max_age_hours * 3600)%Q (now - mtime e)%Q && removable e.

End App.

(** ** The cleaned-signal renderer and the results page *)

Section Application.

Context {lib : MNE}.

(** [plot_cleaned_signal]: the raw-signal renderer again, on the cleaned
    series and under another title.  (On an [Epochs] object the subscript
    fails; the pipeline is called without epoching by the application.) *)
Definition plot_cleaned_signal (cleaned : ref) (out_html_path : string)
    (duration : Q) (n_channels : nat) : M unit :=
  r <- load_raw cleaned ;;
  let data_times := raw_getitem r n_channels (Qtrunc (float_mul duration (sfreq r))) in
  fig <- for_each
           (fun fig i =>
              row <- index data_times.1 i ;;
              nm <- index (ch_names r) i ;;
              ret (fig ++ [mkScatter (Some data_times.2) (offset_by 100 i row) "lines" nm])%list)
           (seq 0 n_channels) [] ;;
  write_html (mkFigure fig "Cleaned EEG Signal (first 5 channels, 10s)"
                       "Time (s)" "Amplitude + offset")
             out_html_path.

(** [os.path.exists(path)] *)
Definition path_exists (path : string) : M bool :=
  fun w => (Ok (bool_decide (is_Some (fs w !! path))), w).

(** The size in bytes of a file's content. *)
Variable file_size : file -> Z.

(** [os.path.getsize(path)] *)
Definition getsize (path : string) : M Z :=
  f <- read_file path ;;
  ret (file_size f).

(** What [results] hands to the template about the processing; the error
    message is kept as the exception whose text it shows. *)
Record page := mkPage {
  raw_plot_exists : bool;
  cleaned_plot_exists : bool;
  ica_plot_exists : bool;
  n_ica_excluded : nat;
  error_message : option exn
}.

(** [results(filename)] from the paths on: the [try] block and the values
    for the template.  The two retention sweeps at the head of the function
    are [cleanup_old_files]; the URLs are left out.  The handler sees the
    locals as they are when the exception comes: [ica_exclude] is bound once
    [preprocess_eeg] has returned, so [n_ica_excluded] is its length when a
    renderer fails and 0 when the pipeline does; the two plot flags are
    assigned before [os.path.getsize] is called, so they stay if it raises. *)
Definition results (filename : string) : M page :=
  let upload_path := App.join App.UPLOAD_FOLDER filename in
  let output_basename := (Path.splitext filename).1 in
  let cleaned_fif := App.join App.OUTPUT_FOLDER (output_basename ++ "_cleaned.fif") in
  let cleaned_csv := App.join App.OUTPUT_FOLDER (output_basename ++ "_cleaned.csv") in
  let raw_plot_path := App.join "output" (output_basename ++ "_raw.html") in
  let cleaned_plot_path := App.join "output" (output_basename ++ "_cleaned.html") in
  let ica_plot_path := App.join "output" (output_basename ++ "_ica.html") in
  try_except
    (res <- preprocess_eeg upload_path cleaned_fif cleaned_csv 1 40 15 false 2 ;;
     let ica_exclude := res.2 in
     try_except
       (plot_raw_signal res.1.1.1 raw_plot_path 10 5 ;;
        plot_cleaned_signal res.1.1.2 cleaned_plot_path 10 5 ;;
        plot_ica_components res.1.2 res.1.1.1 ica_plot_path 10 ;;
        raw_ok <- path_exists raw_plot_path ;;
        cleaned_ok <- path_exists cleaned_plot_path ;;
        try_except
          (ica_there <- path_exists ica_plot_path ;;
           ica_ok <- (if ica_there
                      then size <- getsize ica_plot_path ;; ret (500 <? size)%Z
                      else ret false) ;;
           ret (mkPage raw_ok cleaned_ok ica_ok (length ica_exclude) None))
          (fun e => ret (mkPage raw_ok cleaned_ok false (length ica_exclude) (Some e))))
       (fun e => ret (mkPage false false false (length ica_exclude) (Some e))))
    (fun e => ret (mkPage false false false 0 (Some e))).

End Application.

(** A computation that at most writes one file, [out]: objects are left
    alone, no other path changes, no file disappears, and [out] exists once
    it has returned. *)
Definition renders (out : string) (m : M unit) : Prop :=
  forall w,
    store (m w).2 = store w
    /\ next (m w).2 = next w
    /\ (forall p, p <> out -> fs (m w).2 !! p = fs w !! p)
    /\ (forall p, is_Some (fs w !! p) -> is_Some (fs (m w).2 !! p))
    /\ ((m w).1 = Ok tt -> is_Some (fs (m w).2 !! out)).

(** *** Sample data for the application *)

Module Sample.

(** 5 EEG channels, 250 Hz, 2 s. *)
Definition rec5 : Raw := Sim.synth [EEG; EEG; EEG; EEG; EEG] 250 500.

(** An EEG channel and an EOG channel that moves, 250 Hz, 1 s. *)
Definition rec_blink : Raw :=
  mkRaw [mkChannel "Fp1" EEG; mkChannel "EOG1" EOG] [] 250
        [map (Sim.wave 0) (seq 0 250); map (Sim.wave 3) (seq 0 250)]
        (Some 1700000000).

(** 5 EEG channels of 2600 samples at 250.1 Hz, the rate as float64. *)
Definition rec_odd_rate : Raw :=
  let r := Sim.synth [EEG; EEG; EEG; EEG; EEG] 250 2600 in
  mkRaw (chs r) (bads r) (float64 (2501 # 10)) (data r) (meas_date r).

(** A world whose only object is a recording. *)
Definition loaded (r : Raw) : world := mkWorld {[ 0%nat := ORaw r ]} 1%nat ∅ [].

Definition file_size (f : file) : Z := 1000.

(** An upload folder at time 100000 s: a file of 25 h, a file of 1 h, a
    directory of 25 h, and a file of 25 h that cannot be removed. *)
Definition folder : gmap string App.entry :=
  {[ "old.edf" := App.mkEntry true 10000 true;
     "new.edf" := App.mkEntry true 96400 true;
     "archive" := App.mkEntry false 10000 true;
     "locked.fif" := App.mkEntry true 10000 false ]}.

End Sample.


(** * Properties *)

(** ** Extensions *)

Section PathFacts.

Import Path.

Lemma lower_char_idem c : lower_char (lower_char c) = lower_char c.
Proof. destruct c as [[] [] [] [] [] [] [] []]; reflexivity. Qed.

Lemma lower_char_dot c : Ascii.eqb (lower_char c) "." = Ascii.eqb c ".".
Proof. destruct c as [[] [] [] [] [] [] [] []]; reflexivity. Qed.

Lemma lower_char_sep c : Ascii.eqb (lower_char c) "/" = Ascii.eqb c "/".
Proof. destruct c as [[] [] [] [] [] [] [] []]; reflexivity. Qed.

Lemma lower_idem s : lower (lower s) = lower s.
Proof. induction s as [|c s IH]; simpl; [reflexivity|]. by rewrite lower_char_idem, IH. Qed.

Lemma lower_length s : String.length (lower s) = String.length s.
Proof. induction s as [|c s IH]; simpl; congruence. Qed.

Lemma rfind_from_lower c s i acc :
  Ascii.eqb c "." = true \/ Ascii.eqb c "/" = true ->
  rfind_from c (lower s) i acc = rfind_from c s i acc.
Proof.
  intros Hc. revert i acc. induction s as [|a s IH]; intros i acc; simpl; [reflexivity|].
  rewrite IH. f_equal.
  destruct Hc as [Hc|Hc]; apply Ascii.eqb_eq in Hc; subst c.
  - by rewrite lower_char_dot.
  - by rewrite lower_char_sep.
Qed.

Lemma get_lower n s : String.get n (lower s) = option_map lower_char (String.get n s).
Proof.
  revert n. induction s as [|a s IH]; intros [|n]; simpl; try reflexivity. apply IH.
Qed.

Lemma has_non_dot_lower p i n : has_non_dot (lower p) i n = has_non_dot p i n.
Proof.
  revert i. induction n as [|n IH]; intros i; simpl; [reflexivity|].
  rewrite get_lower. destruct (String.get i p) as [c|]; simpl; [|reflexivity].
  by rewrite lower_char_dot, IH.
Qed.

Lemma substring_lower n m s : substring n m (lower s) = lower (substring n m s).
Proof.
  revert n m. induction s as [|a s IH]; intros [|n] [|m]; simpl; try reflexivity.
  - by rewrite IH.
  - apply IH.
  - apply IH.
Qed.

Lemma splitext_lower p :
  splitext (lower p) = (lower (splitext p).1, lower (splitext p).2).
Proof.
  unfold splitext, rfind.
  rewrite !rfind_from_lower by (by left + by right).
  rewrite has_non_dot_lower, lower_length, !substring_lower.
  by destruct (_ && _).
Qed.

Lemma extension_lower p : extension (lower p) = extension p.
Proof. unfold extension. rewrite splitext_lower. simpl. apply lower_idem. Qed.

End PathFacts.

(** ** Which exceptions a computation can end with *)

Section Raises.

Context {lib : MNE}.

Lemma raises_ret {A} P (a : A) : raises_only P (ret a).
Proof. intros w e w' H. discriminate H. Qed.

Lemma raises_raise {A} (P : exn -> Prop) e : P e -> raises_only P (@raise A e).
Proof. intros HP w e' w' H. unfold raise in H. congruence. Qed.

Lemma raises_bind {A B} P (m : M A) (k : A -> M B) :
  raises_only P m -> (forall a, raises_only P (k a)) -> raises_only P (bind m k).
Proof.
  intros Hm Hk w e w' H. unfold bind in H.
  destruct (m w) as [[a|e0] w0] eqn:E.
  - eapply Hk, H.
  - inversion H; subst. eapply Hm, E.
Qed.

Lemma raises_try {A} P (m : M A) (h : exn -> M A) :
  (forall e, raises_only P (h e)) -> raises_only P (try_except m h).
Proof.
  intros Hh w e w' H. unfold try_except in H.
  destruct (m w) as [[a|e0] w0]; [discriminate H|]. eapply Hh, H.
Qed.

Lemma raises_lift {A} (r : mne_error + A) : raises_only from_below (lift r).
Proof. destruct r; intros w e w' H; inversion H; exact I. Qed.

Lemma raises_alloc o : raises_only from_below (alloc o).
Proof. intros w e w' H. discriminate H. Qed.

Lemma raises_assign r o : raises_only from_below (assign r o).
Proof. intros w e w' H. discriminate H. Qed.

Lemma raises_called c : raises_only from_below (called c).
Proof. intros w e w' H. discriminate H. Qed.

Lemma raises_load r : raises_only from_below (load r).
Proof.
  intros w e w' H. unfold load in H.
  destruct (store w !! r); inversion H; exact I.
Qed.

Lemma raises_read_file p : raises_only from_below (read_file p).
Proof.
  intros w e w' H. unfold read_file in H.
  destruct (fs w !! p); inversion H; exact I.
Qed.

Lemma raises_write p f : raises_only from_below (write p f).
Proof.
  unfold write. destruct (write_error p).
  - by apply raises_raise.
  - intros w e w' H. discriminate H.
Qed.

End Raises.

Create HintDb raises.
#[export] Hint Resolve raises_ret raises_lift raises_alloc raises_assign raises_called
  raises_load raises_read_file raises_write : raises.

(** Walks through a computation built from the primitives above. *)
Ltac raises_walk :=
  repeat first
    [ apply raises_bind; [|intros ?]
    | apply raises_try; intros ?
    | solve [auto with raises]
    | solve [apply raises_raise; exact I]
    | match goal with
      | |- raises_only _ (match ?o with _ => _ end) => destruct o
      | |- raises_only _ (if ?b then _ else _) => destruct b
      end ].

Section EntryPoint.

Context {lib : MNE}.

Lemma raises_load_raw r : raises_only from_below (load_raw r).
Proof. unfold load_raw. raises_walk. Qed.

Lemma raises_load_ica r : raises_only from_below (load_ica r).
Proof. unfold load_ica. raises_walk. Qed.

Lemma raises_fitted i : raises_only from_below (fitted i).
Proof. unfold fitted. raises_walk. Qed.

Hint Resolve raises_load_raw raises_load_ica raises_fitted : raises.

Lemma raises_supported input_path fif_out csv_out l_freq h_freq n_components epoch epoch_length :
  Path.extension input_path = ".edf" \/ Path.extension input_path = ".fif" ->
  raises_only from_below
    (preprocess_eeg input_path fif_out csv_out l_freq h_freq n_components epoch epoch_length).
Proof.
  intros Hext.
  unfold preprocess_eeg, read_raw_edf, read_raw_fif, read_raw, raw_filter, ICA_new, ica_fit,
    find_bads_eog, set_exclude, raw_copy, ica_apply, make_fixed_length_events, Epochs_new,
    set_meas_date_none, save, raw_get_data, epochs_get_data, savetxt, get_exclude.
  fold (Path.extension input_path).
  destruct Hext as [-> | ->]; simpl String.eqb; cbv iota; raises_walk.
Qed.

End EntryPoint.

Section Extensions.

Context {lib : MNE}.

Variables (fif_out_path csv_out_path : string) (l_freq h_freq : Q)
  (n_components : Z) (epoch : bool) (epoch_length : Q).

#[local] Abbreviation run p :=
  (preprocess_eeg p fif_out_path csv_out_path l_freq h_freq n_components epoch epoch_length).

Lemma unsupported_run input_path w :
  Path.extension input_path <> ".edf" ->
  Path.extension input_path <> ".fif" ->
  run input_path w = (Raise (ValueError "Unsupported file format"), w).
Proof.
  intros Hedf Hfif. unfold preprocess_eeg. fold (Path.extension input_path).
  destruct (String.eqb_spec (Path.extension input_path) ".edf") as [|_]; [done|].
  destruct (String.eqb_spec (Path.extension input_path) ".fif") as [|_]; [done|].
  reflexivity.
Qed.

Lemma unsupported_iff input_path w :
  unsupported (run input_path w) <->
  Path.extension input_path <> ".edf" /\ Path.extension input_path <> ".fif".
Proof.
  split.
  - intros Hu.
    destruct (String.eqb_spec (Path.extension input_path) ".edf") as [Hedf|Hedf];
      [|destruct (String.eqb_spec (Path.extension input_path) ".fif") as [Hfif|Hfif]];
      [exfalso| exfalso| by split].
    + destruct (run input_path w) as [o w'] eqn:E. unfold unsupported in Hu. simpl in Hu.
      subst o. eapply (raises_supported input_path) in E; [exact E | by left].
    + destruct (run input_path w) as [o w'] eqn:E. unfold unsupported in Hu. simpl in Hu.
      subst o. eapply (raises_supported input_path) in E; [exact E | by right].
  - intros [Hedf Hfif]. unfold unsupported. by rewrite unsupported_run.
Qed.

(** C1. An input path whose lowercased extension is neither [.edf] nor
    [.fif] makes [preprocess_eeg] raise the unsupported-format error at once:
    no library call has been made (no read, filter, decomposition or write),
    no object has been built, and the file system is as it was, so no output
    file exists that did not exist before. *)
Theorem unsupported_extension_hard_stop input_path w :
  Path.extension input_path <> ".edf" ->
  Path.extension input_path <> ".fif" ->
  (run input_path w).1 = Raise (ValueError "Unsupported file format")
  /\ calls_of (run input_path) w = []
  /\ fs (run input_path w).2 = fs w
  /\ (run input_path w).2 = w.
Proof.
  intros Hedf Hfif. unfold calls_of. rewrite (unsupported_run _ w Hedf Hfif). simpl.
  repeat split. by rewrite drop_all.
Qed.

(** C10. Whether the entry point accepts a path depends only on the
    lowercased extension: two paths with the same lowercased extension are
    both refused or both accepted, whatever else differs; in particular a
    path is accepted exactly when its lowercase form is, so [.EDF], [.Edf]
    or [.FIF] go the way of [.edf] and [.fif]. *)
Theorem extension_case_insensitive input_path w :
  (forall other w', Path.extension other = Path.extension input_path ->
     (unsupported (run other w') <-> unsupported (run input_path w)))
  /\ Path.extension (Path.lower input_path) = Path.extension input_path
  /\ (unsupported (run (Path.lower input_path) w) <-> unsupported (run input_path w)).
Proof.
  assert (Hsame : forall other w', Path.extension other = Path.extension input_path ->
     (unsupported (run other w') <-> unsupported (run input_path w))).
  { intros other w' Heq. rewrite !unsupported_iff, Heq. reflexivity. }
  split; [exact Hsame|]. split; [apply extension_lower|].
  apply Hsame, extension_lower.
Qed.

End Extensions.

(** ** Running the entry point symbolically *)

Lemma ch_names_with_data r d : ch_names (with_data r d) = ch_names r.
Proof. reflexivity. Qed.

Lemma pick_types_eog_with_data r d : pick_types_eog (with_data r d) = pick_types_eog r.
Proof. reflexivity. Qed.

Lemma with_data_again r d d' : with_data (with_data r d) d' = with_data r d'.
Proof. reflexivity. Qed.

Lemma sfreq_with_data r d : sfreq (with_data r d) = sfreq r.
Proof. reflexivity. Qed.

Lemma data_with_data r d : data (with_data r d) = d.
Proof. reflexivity. Qed.

Lemma no_eog_no_pick r :
  Forall (fun c => kind c <> EOG) (chs r) -> pick_types_eog r = [].
Proof.
  unfold pick_types_eog. generalize (bads r) as bs. generalize 0%nat as start.
  induction (chs r) as [|c cs IH]; intros start bs Hall; [reflexivity|].
  inversion Hall as [|? ? Hc Hcs]; subst. cbn [length seq zip zip_with].
  rewrite filter_cons. cbn [snd]. destruct (kind c); try congruence; cbn [is_eog andb];
    (destruct (decide False); [contradiction|]); by apply IH.
Qed.

Ltac exec_unfold :=
  unfold preprocess_eeg, read_raw_edf, read_raw_fif, read_raw, raw_filter, ICA_new, ica_fit,
    find_bads_eog, set_exclude, raw_copy, ica_apply, make_fixed_length_events, Epochs_new,
    set_meas_date_none, save, raw_get_data, epochs_get_data, savetxt, get_exclude,
    load_raw, load_ica, fitted, write, read_file, lift, alloc, load, assign, called,
    try_except, bind, ret, raise.

Ltac exec_simpl :=
  cbn beta iota delta [store next fs log fst snd ica_n_components random_state solution
                       exclude length Nat.ltb Nat.leb].

Ltac exec_step :=
  match goal with
  | |- context [ch_names (with_data ?r ?d)] => rewrite (ch_names_with_data r d)
  | |- context [pick_types_eog (with_data ?r ?d)] => rewrite (pick_types_eog_with_data r d)
  | |- context [with_data (with_data ?r ?d) ?d'] => rewrite (with_data_again r d d')
  | |- context [sfreq (with_data ?r ?d)] => rewrite (sfreq_with_data r d)
  | |- context [data (with_data ?r ?d)] => rewrite (data_with_data r d)
  | H : pick_types_eog ?r = _ |- context [pick_types_eog ?r] => rewrite H
  | H : ?x = _ |- context [match ?x with _ => _ end] => rewrite H
  | |- context [<[?k:=?v]> ?m !! ?k] => rewrite (lookup_insert_eq m k v)
  | |- context [<[?k:=?v]> ?m !! ?j] => rewrite (lookup_insert_ne m k j v) by lia
  | |- context [match ?x with _ => _ end] =>
      lazymatch x with
      | context [match _ with _ => _ end] => fail
      | _ => destruct x eqn:?
      end
  end.

Ltac exec := exec_unfold; repeat (exec_simpl; exec_step); exec_simpl.

(** Names the result of a run, so that it is executed once. *)
Ltac on_run r :=
  let res := fresh "res" in
  let Hres := fresh "Hres" in
  remember r as res eqn:Hres; revert Hres.

Ltac norm_calls :=
  rewrite <- ?app_assoc; rewrite ?drop_app_length; cbn [app].

Ltac in_calls :=
  repeat match goal with
    | H : _ ∈ [] |- _ => by apply elem_of_nil in H
    | H : _ ∈ _ :: _ |- _ =>
        apply elem_of_cons in H; destruct H as [H|H];
        [try discriminate H; try (injection H as ? ?; subst)|]
    end.

Ltac is_call := rewrite ?elem_of_cons; auto 20.

Section Runs.

Context {lib : MNE}.

Variables (input_path fif_out_path csv_out_path : string) (l_freq h_freq : Q)
  (n_components : Z) (epoch : bool) (epoch_length : Q).

#[local] Abbreviation run :=
  (preprocess_eeg input_path fif_out_path csv_out_path l_freq h_freq n_components
                  epoch epoch_length).

Lemma extension_cases :
  (Path.extension input_path = ".edf" \/ Path.extension input_path = ".fif")
  \/ (Path.extension input_path <> ".edf" /\ Path.extension input_path <> ".fif").
Proof.
  destruct (String.eqb_spec (Path.extension input_path) ".edf"); [by left; left|].
  destruct (String.eqb_spec (Path.extension input_path) ".fif"); [by left; right|].
  by right.
Qed.

(** The two accepted extensions differ in the codec only. *)
Lemma reader_supported :
  Path.extension input_path = ".edf" \/ Path.extension input_path = ".fif" ->
  exists codec dec,
    (if String.eqb (Path.extension input_path) ".edf" then read_raw_edf input_path
     else if String.eqb (Path.extension input_path) ".fif" then read_raw_fif input_path
     else raise (ValueError "Unsupported file format"))
    = read_raw codec dec input_path
    /\ forall w,
         recording_at input_path w
         = match fs w !! input_path with
           | Some f => match dec f with inr r => Some r | inl _ => None end
           | None => None
           end.
Proof.
  unfold recording_at.
  intros [Hext|Hext]; rewrite Hext; simpl String.eqb; cbv iota.
  - by exists "edf", decode_edf.
  - by exists "fif", decode_fif.
Qed.

Lemma recording_at_inv w raw0 :
  recording_at input_path w = Some raw0 ->
  exists f codec dec,
    fs w !! input_path = Some f
    /\ dec f = inr raw0
    /\ (if String.eqb (Path.extension input_path) ".edf" then read_raw_edf input_path
        else if String.eqb (Path.extension input_path) ".fif" then read_raw_fif input_path
        else raise (ValueError "Unsupported file format"))
       = read_raw codec dec input_path.
Proof.
  intros Hrec.
  assert (Hext : Path.extension input_path = ".edf" \/ Path.extension input_path = ".fif").
  { unfold recording_at in Hrec. destruct (fs w !! input_path); [|done].
    destruct (String.eqb_spec (Path.extension input_path) ".edf"); [by left|].
    destruct (String.eqb_spec (Path.extension input_path) ".fif"); [by right|done]. }
  destruct (reader_supported Hext) as (codec & dec & Hreader & Hrecording).
  rewrite Hrecording in Hrec. destruct (fs w !! input_path) as [f|]; [|done].
  exists f, codec, dec. split; [done|]. split; [|done].
  destruct (dec f); congruence.
Qed.

(** Starts a proof about [run w] for a recording that is read. *)
Ltac start_run Hrec :=
  let f := fresh "f" in
  let codec := fresh "codec" in
  let dec := fresh "dec" in
  let Hf := fresh "Hf" in
  let Hreader := fresh "Hreader" in
  let Hdec := fresh "Hdec" in
  destruct (recording_at_inv _ _ Hrec) as (f & codec & dec & Hf & Hdec & Hreader);
  match goal with
  | |- context [preprocess_eeg ?a ?b ?c ?d ?e ?g ?h ?i ?w] =>
      on_run (preprocess_eeg a b c d e g h i w)
  end;
  unfold preprocess_eeg; fold (Path.extension input_path); rewrite Hreader; clear Hreader;
  exec; intros ->; cbn [fst snd store next fs log].

(** C2. The component count handed to the ICA constructor, and so the one
    the decomposition is fitted with, is min(requested, number of channels):
    every ICA built during a run has that count, which is at most the number
    of channels; once the filter has run the ICA is built with it; and the
    ICA object a run returns carries that count and a solution that was
    fitted with it. *)
Theorem ica_component_count_is_min w raw0 :
  recording_at input_path w = Some raw0 ->
  let n_chan := Z.of_nat (length (ch_names raw0)) in
  (forall k seed, CallICA k seed ∈ calls_of run w ->
     k = Z.min n_components n_chan /\ (k <= n_chan)%Z)
  /\ (forall d, fir_filter l_freq h_freq raw0 = inr d ->
        CallICA (Z.min n_components n_chan) 97 ∈ calls_of run w)
  /\ (forall raw cleaned ica excl,
        (run w).1 = Ok (raw, cleaned, ica, excl) ->
        exists i d s,
          store (run w).2 !! ica = Some (OICA i)
          /\ ica_n_components i = Z.min n_components n_chan
          /\ fir_filter l_freq h_freq raw0 = inr d
          /\ fastica (Z.min n_components n_chan) 97 (with_data raw0 d) = inr s
          /\ solution i = Some s).
Proof.
  intros Hrec n_chan. subst n_chan. unfold calls_of.
  start_run Hrec.
  all: norm_calls.
  all: (split; [|split]);
    [ intros k seed Hin; in_calls; split; first [reflexivity | apply Z.le_min_r]
    | intros d' Hd'; try discriminate Hd'; is_call
    | intros raw cleaned ica excl Heq; try discriminate Heq ].
  all: injection Heq as <- <- <- <-.
  all: repeat exec_step.
  all: eexists _, _, _; repeat split; try reflexivity; eassumption.
Qed.

(** C3. When the recording has no EOG channel, a run never calls the
    scoring procedure, and the exclude set it returns (and leaves on the ICA
    object) is empty; with the library calls succeeding, the run does
    return. *)
Theorem no_eog_channel_empty_exclude w raw0 :
  recording_at input_path w = Some raw0 ->
  Forall (fun c => kind c <> EOG) (chs raw0) ->
  (forall ica inst, CallFindBadsEog ica inst ∉ calls_of run w)
  /\ (forall raw cleaned ica excl,
        (run w).1 = Ok (raw, cleaned, ica, excl) ->
        excl = [] /\
        exists i, store (run w).2 !! ica = Some (OICA i) /\ exclude i = [])
  /\ (forall d1 s d2,
        epoch = false ->
        fir_filter l_freq h_freq raw0 = inr d1 ->
        fastica (Z.min n_components (Z.of_nat (length (ch_names raw0)))) 97
                (with_data raw0 d1) = inr s ->
        back_project s [] (with_data raw0 d1) = inr d2 ->
        write_error fif_out_path = None ->
        write_error csv_out_path = None ->
        (run w).1 = Ok (next w, S (S (next w)), S (next w), [])).
Proof.
  intros Hrec Hnone. pose proof (no_eog_no_pick _ Hnone) as Hpick. unfold calls_of.
  start_run Hrec.
  all: norm_calls.
  all: (split; [|split]);
    [ intros ica inst Hin; in_calls
    | intros raw cleaned ica excl Heq; try discriminate Heq
    | intros; first [reflexivity | congruence] ].
  all: injection Heq as <- <- <- <-.
  all: repeat exec_step.
  all: split; [reflexivity|]; eexists; split; reflexivity.
Qed.

(** C4. When the recording has a usable EOG channel and the scoring
    procedure raises, the run goes on: scoring is followed by the
    reconstruction call, the exclude set is empty, and with the later library
    calls succeeding the run returns its result with both exports written. *)
Theorem eog_scoring_failure_is_soft w raw0 d1 s err :
  recording_at input_path w = Some raw0 ->
  pick_types_eog raw0 <> [] ->
  fir_filter l_freq h_freq raw0 = inr d1 ->
  fastica (Z.min n_components (Z.of_nat (length (ch_names raw0)))) 97
          (with_data raw0 d1) = inr s ->
  eog_scores s (with_data raw0 d1) = inl err ->
  (CallFindBadsEog (S (next w)) (next w) ∈ calls_of run w
   /\ CallApply (S (next w)) (S (S (next w))) ∈ calls_of run w)
  /\ (forall raw cleaned ica excl,
        (run w).1 = Ok (raw, cleaned, ica, excl) ->
        excl = [] /\
        exists i, store (run w).2 !! ica = Some (OICA i) /\ exclude i = [])
  /\ (forall d2,
        back_project s [] (with_data raw0 d1) = inr d2 ->
        write_error fif_out_path = None ->
        write_error csv_out_path = None ->
        (epoch = true ->
         exists evs, fixed_length_events (n_times (with_data raw0 d2)) (sfreq raw0)
                                         epoch_length = inr evs) ->
        exists cleaned,
          (run w).1 = Ok (next w, cleaned, S (next w), [])
          /\ is_Some (fs (run w).2 !! fif_out_path)
          /\ is_Some (fs (run w).2 !! csv_out_path)
          /\ (epoch = false ->
              fs (run w).2 !! csv_out_path = Some (Csv (map (map Num) d2)))).
Proof.
  intros Hrec Hsome Hfilter Hfit Hscore. unfold calls_of.
  destruct (pick_types_eog raw0) as [|c cs] eqn:Hpick; [done|].
  start_run Hrec.
  all: norm_calls.
  all: (split; [|split]);
    [ split; is_call
    | intros raw cleaned ica excl Heq; try discriminate Heq
    | intros d2 Hbp Hw1 Hw2 Hev; try discriminate Hbp; try discriminate Hw1;
      try discriminate Hw2; injection Hbp as <-;
      try (destruct (Hev eq_refl) as [evs Hevs]; congruence) ].
  all: try (injection Heq as <- <- <- <-; repeat exec_step;
            split; [reflexivity|]; eexists; split; reflexivity).
  all: eexists; split; [reflexivity|].
  all: rewrite !lookup_insert; repeat case_decide; repeat split; eauto; try congruence.
Qed.

(** The filter works in place on the series that was read: a run that
    returns has filtered the very object it returns first, that object holds
    the filtered array, it is the one the decomposition was fitted on, and
    only the reconstruction got a copy (the cleaned series is another
    object). *)
Theorem filter_rewrites_loaded_series w raw0 :
  recording_at input_path w = Some raw0 ->
  forall raw cleaned ica excl,
    (run w).1 = Ok (raw, cleaned, ica, excl) ->
    exists d,
      fir_filter l_freq h_freq raw0 = inr d
      /\ raw = next w
      /\ store (run w).2 !! raw = Some (ORaw (with_data raw0 d))
      /\ CallFilter raw l_freq h_freq ∈ calls_of run w
      /\ (forall inst a b, CallFilter inst a b ∈ calls_of run w -> inst = raw)
      /\ CallFit ica raw ∈ calls_of run w
      /\ cleaned <> raw.
Proof.
  intros Hrec. unfold calls_of.
  start_run Hrec.
  all: norm_calls.
  all: intros raw cleaned ica excl Heq; try discriminate Heq.
  all: injection Heq as <- <- <- <-.
  all: repeat exec_step.
  all: eexists; split; [reflexivity|]; split; [reflexivity|]; split; [reflexivity|].
  all: split; [is_call|]; split; [intros inst a b Hin; by in_calls|].
  all: split; [is_call | lia].
Qed.

Lemma seed_is_fixed w k seed :
  CallICA k seed ∈ calls_of run w -> seed = 97.
Proof.
  unfold calls_of.
  destruct extension_cases as [Hext|[Hedf Hfif]].
  2: { rewrite (unsupported_run _ _ _ _ _ _ _ _ w Hedf Hfif). simpl. rewrite drop_all.
       intros Hin. by in_calls. }
  destruct (reader_supported Hext) as (codec & dec & Hreader & _).
  all: on_run (run w); unfold preprocess_eeg; fold (Path.extension input_path);
    rewrite Hreader; clear Hreader; exec; intros ->; cbn [fst snd log].
  all: norm_calls; intros Hin; by in_calls.
Qed.

(** C9. Two runs on the same input file with the same parameters, in
    worlds that may differ everywhere else, end the same way: the same
    exception, or results that agree on the filtered series, the fitted
    decomposition, the cleaned series, the exclude list and the two exports.
    The decomposition is always seeded with 97. *)
Theorem runs_agree_on_same_input w1 w2 :
  fs w1 !! input_path = fs w2 !! input_path ->
  snapshot fif_out_path csv_out_path (run w1) = snapshot fif_out_path csv_out_path (run w2)
  /\ (forall k seed, CallICA k seed ∈ calls_of run w1 -> seed = 97).
Proof.
  intros Hsame. split; [|intros k seed; apply seed_is_fixed].
  destruct extension_cases as [Hext|[Hedf Hfif]];
    [|by rewrite !(unsupported_run _ _ _ _ _ _ _ _ _ Hedf Hfif)].
  destruct (reader_supported Hext) as (codec & dec & Hreader & _).
  destruct (fs w2 !! input_path) as [f|] eqn:Hf2.
  (* the first run, branch by branch; its snapshot is then named, and the
     second run follows the same branch *)
  all: remember (run w2) as r2 eqn:Hr2.
  all: on_run (run w1); unfold preprocess_eeg; fold (Path.extension input_path);
    rewrite Hreader; exec; intros ->.
  all: unfold snapshot at 1; cbn [fst snd store fs]; repeat exec_step.
  all: match goal with |- ?lhs = _ => remember lhs as s1 eqn:Hs1 end.
  all: revert Hr2; unfold preprocess_eeg; fold (Path.extension input_path);
    rewrite Hreader; exec; intros ->.
  all: unfold snapshot; cbn [fst snd store fs]; repeat exec_step; subst s1;
    try reflexivity.
  all: rewrite !lookup_insert; repeat case_decide; congruence.
Qed.

End Runs.

(** After a run on the 4-channel recording the first returned series no
    longer holds the signal that was read. *)
Lemma returned_raw_is_filtered :
  ~ returns_unfiltered_raw (lib := Sim.lib) "uploads/a.edf" "output/a_cleaned.fif"
      "output/a_cleaned.csv" 1 40 15 false 2 (Sim.disk "uploads/a.edf" Sim.rec4).
Proof.
  intros H.
  destruct (H Sim.rec4 0%nat 2%nat 1%nat [] ltac:(vm_compute; reflexivity)
              ltac:(vm_compute; reflexivity)) as (v & Hv & Hd).
  pose (res := preprocess_eeg (lib := Sim.lib) "uploads/a.edf" "output/a_cleaned.fif"
                 "output/a_cleaned.csv" 1 40 15 false 2 (Sim.disk "uploads/a.edf" Sim.rec4)).
  change (store res.2 !! 0%nat = Some (ORaw v)) in Hv.
  assert (E : match store res.2 !! 0%nat with
              | Some (ORaw u) => hd (0 # 1)%Q (hd [] (data u))
              | _ => (0 # 1)%Q
              end = hd (0 # 1)%Q (hd [] (data Sim.rec4))).
  { rewrite Hv, Hd. reflexivity. }
  vm_compute in E. discriminate E.
Qed.

(** ** Epoching and the text export *)

Lemma Qround_zero_times sf : Qround (0 * sf)%Q = 0.
Proof. unfold Qround. destruct sf as [n d]. reflexivity. Qed.

(** A window from [tmin = 0] to [tmax = L] holds [round(L * sfreq) + 1]
    samples: both ends are included. *)
Lemma window_has_both_ends sf L :
  (0 <= Qround (L * sf)%Q)%Z ->
  window_samples sf 0 L = S (Z.to_nat (Qround (L * sf)%Q)).
Proof.
  intros Hpos. unfold window_samples, window_first. rewrite Qround_zero_times.
  rewrite Z.sub_0_r, Z2Nat.inj_add by lia. simpl. lia.
Qed.

Lemma mean_axis0_shape shape ws :
  length (mean_axis0 (shape, ws)) = shape.1
  /\ Forall (fun row => length row = shape.2) (mean_axis0 (shape, ws)).
Proof.
  unfold mean_axis0. cbn [fst snd]. split.
  - by rewrite length_map, length_seq.
  - apply Forall_forall. intros row Hin. apply list_elem_of_In, in_map_iff in Hin.
    destruct Hin as (c & <- & _). by rewrite length_map, length_seq.
Qed.

(** C7, on a 10 s recording at 250 Hz with 2 s windows.  The text export
    is the mean over the windows kept, but a window holds 501 samples, not
    2.0 x 250 = 500: the export is 2 x 501; and of the five window starts
    the last window does not fit in the 2500 samples, so four are averaged. *)
Theorem epoched_export_has_one_sample_too_many :
  let res := preprocess_eeg (lib := Sim.lib) "uploads/a.edf" "output/a_cleaned.fif"
               "output/a_cleaned.csv" 1 40 15 true 2 (Sim.disk "uploads/a.edf" Sim.rec10s) in
  exists m e,
    fs res.2 !! "output/a_cleaned.csv" = Some (Csv m)
    /\ fs res.2 !! "output/a_cleaned.fif" = Some (FifEpochs e)
    /\ m = mean_axis0 (ep_shape e, ep_data e)
    /\ length m = 2%nat
    /\ Forall (fun row => length row = 501%nat) m
    /\ Qround (2 * sfreq Sim.rec10s)%Q = 500
    /\ n_times Sim.rec10s = 2500%nat
    /\ fixed_length_events 2500 (sfreq Sim.rec10s) 2 = inr [0; 500; 1000; 1500; 2000]
    /\ ep_events e = [0; 500; 1000; 1500]
    /\ length (ep_data e) = 4%nat.
Proof.
  eexists _, _. split; [vm_compute; reflexivity|]. split; [vm_compute; reflexivity|].
  split; [vm_compute; reflexivity|]. split; [reflexivity|].
  split; [repeat constructor|]. repeat split; vm_compute; reflexivity.
Qed.

(** ** The raw-signal renderer *)

Section Renderer.

Context {lib : MNE}.

Lemma plot_loop_fails (rows : matrix) (names : list string) (times : list Q) count :
  forall start acc w,
    (start <= length rows)%nat ->
    (length rows < start + count)%nat ->
    for_each
      (fun fig i =>
         row <- index rows i ;;
         nm <- index names i ;;
         ret (fig ++ [mkScatter (Some times) (offset_by 100 i row) "lines" nm])%list)
      (seq start count) acc w
    = (Raise IndexError, w).
Proof.
  induction count as [|count IH]; intros start acc w Hle Hlt; [lia|].
  cbn [seq for_each]. unfold bind at 1. unfold bind at 1. unfold index at 1.
  match goal with
  | |- context [match ?o with Some _ => _ | None => _ end] =>
      destruct o as [row|] eqn:Hrow; [|reflexivity]
  end.
  cbn [ret]. unfold bind at 1. unfold index at 1.
  match goal with
  | |- context [match ?o with Some _ => _ | None => _ end] =>
      destruct o as [nm|]; [|reflexivity]
  end.
  cbn [ret]. apply lookup_lt_Some in Hrow. apply IH; lia.
Qed.

(** With fewer channels than [n_channels], the renderer raises [IndexError]
    and writes nothing. *)
Lemma plot_raw_signal_few_channels raw r out duration n_channels w :
  store w !! raw = Some (ORaw r) ->
  (length (data r) < n_channels)%nat ->
  plot_raw_signal raw out duration n_channels w = (Raise IndexError, w).
Proof.
  intros Hraw Hfew. unfold plot_raw_signal, load_raw, load. unfold bind at 1.
  unfold bind at 1. rewrite Hraw. cbn [ret]. unfold bind at 1.
  rewrite plot_loop_fails; [reflexivity | lia |].
  unfold raw_getitem. cbn [fst]. rewrite length_map, length_take. lia.
Qed.

(** With enough channels the loop builds one trace per channel, each the
    channel's samples shifted by 100 times its index. *)
Lemma plot_loop_traces (rows : matrix) (names : list string) (times : list Q) count :
  forall start acc w,
    (start + count <= length rows)%nat ->
    (start + count <= length names)%nat ->
    for_each
      (fun fig i =>
         row <- index rows i ;;
         nm <- index names i ;;
         ret (fig ++ [mkScatter (Some times) (offset_by 100 i row) "lines" nm])%list)
      (seq start count) acc w
    = (Ok (acc ++ map (fun i => mkScatter (Some times) (offset_by 100 i (nth i rows []))
                                           "lines" (nth i names ""))
                      (seq start count))%list, w).
Proof.
  induction count as [|count IH]; intros start acc w Hrows Hnames.
  - cbn [seq map for_each]. by rewrite app_nil_r.
  - cbn [seq map for_each]. unfold bind at 1. unfold bind at 1. unfold index at 1.
    destruct (lookup_lt_is_Some_2 rows start ltac:(lia)) as [row Hrow].
    destruct (lookup_lt_is_Some_2 names start ltac:(lia)) as [nm Hnm].
    rewrite (nth_lookup_Some _ _ [] _ Hrow), (nth_lookup_Some _ _ "" _ Hnm).
    match goal with
    | |- context [match ?o with Some _ => _ | None => _ end] => replace o with (Some row)
    end.
    cbn [ret]. unfold bind at 1. unfold index at 1.
    match goal with
    | |- context [match ?o with Some _ => _ | None => _ end] => replace o with (Some nm)
    end.
    cbn [ret]. rewrite IH by lia. by rewrite <- app_assoc.
Qed.

(** With at least [n_channels] channels the renderer writes one figure with
    [n_channels] traces over the samples before [int(duration * sfreq)]. *)
Lemma plot_raw_signal_enough_channels raw r out duration n_channels w :
  store w !! raw = Some (ORaw r) ->
  (n_channels <= length (data r))%nat ->
  (n_channels <= length (ch_names r))%nat ->
  write_error out = None ->
  let stop := Qtrunc (float_mul duration (sfreq r)) in
  let fig :=
    mkFigure
      (map (fun i => mkScatter (Some (raw_getitem r n_channels stop).2)
                               (offset_by 100 i (slice_to stop (nth i (data r) [])))
                               "lines" (nth i (ch_names r) ""))
           (seq 0 n_channels))
      "Raw EEG Signal (first 5 channels, 10s)" "Time (s)" "Amplitude + offset" in
  plot_raw_signal raw out duration n_channels w
  = (Ok tt, mkWorld (store w) (next w) (<[out := Html fig]> (fs w))
                    (log w ++ [CallWriteHtml out])).
Proof.
  intros Hraw Hrows Hnames Hwrite stop fig.
  unfold plot_raw_signal, load_raw, load. unfold bind at 1. unfold bind at 1.
  rewrite Hraw. cbn [ret]. unfold bind at 1.
  rewrite plot_loop_traces.
  - unfold write_html, write, called, bind. rewrite Hwrite. cbn [store next fs log].
    subst fig. cbn [app].
    match goal with
    | |- (_, mkWorld _ _ (<[_ := Html (mkFigure ?a _ _ _)]> _) _) = (_, mkWorld _ _ (<[_ := Html (mkFigure ?b _ _ _)]> _) _) =>
        replace a with b; [reflexivity|]
    end.
    symmetry.
    apply map_ext_in. intros i Hi. apply in_seq in Hi. f_equal. f_equal.
    unfold raw_getitem. cbn [fst]. fold stop.
    assert (Hnil : slice_to stop (@nil Q) = []).
    { unfold slice_to. destruct (0 <=? stop)%Z; by rewrite ?firstn_nil. }
    rewrite <- Hnil at 1. rewrite map_nth. f_equal.
    rewrite !nth_lookup, lookup_take_lt by lia. reflexivity.
  - unfold raw_getitem. cbn [fst]. rewrite length_map, length_take. lia.
  - lia.
Qed.

(** The component-sources renderer bounds its loop by the number of rows, so
    its loop always completes. *)
Lemma plot_ica_loop_in_range (rows : matrix) count :
  forall start acc w,
    (start + count <= length rows)%nat ->
    exists fig,
      for_each
        (fun fig i =>
           row <- index rows i ;;
           ret (fig ++ [mkScatter None (offset_by 200 i row) "lines"
                                  ("ICA " +:+ pretty (i + 1)%nat)])%list)
        (seq start count) acc w
      = (Ok fig, w).
Proof.
  induction count as [|count IH]; intros start acc w Hle; [by eexists|].
  cbn [seq for_each]. unfold bind at 1. unfold bind at 1. unfold index at 1.
  match goal with
  | |- context [match ?o with Some _ => _ | None => _ end] =>
      destruct o as [row|] eqn:Hrow
  end.
  - cbn [ret]. apply IH. lia.
  - apply lookup_ge_None in Hrow. lia.
Qed.

Lemma plot_ica_components_in_range ica raw out n_components :
  raises_only from_below (plot_ica_components ica raw out n_components).
Proof.
  unfold plot_ica_components. apply raises_bind.
  { unfold get_sources_data, load_ica, load_raw, fitted. raises_walk. }
  intros sources. cbv zeta. apply raises_bind.
  - intros w e w' H.
    destruct (plot_ica_loop_in_range sources (Nat.min n_components (length sources))
                0%nat [] w ltac:(lia)) as [fig Hfig].
    rewrite Hfig in H. discriminate H.
  - intros fig. unfold write_html. raises_walk.
Qed.

End Renderer.

(** C8, on the 4-channel recording.  After the pipeline has run, the
    renderer called as the application calls it (10 s, 5 channels) raises
    [IndexError] when it reaches the fifth channel, and no plot is written. *)
Theorem plot_raw_signal_four_channels :
  let res := preprocess_eeg (lib := Sim.lib) "uploads/a.edf" "output/a_cleaned.fif"
               "output/a_cleaned.csv" 1 40 15 false 2 (Sim.disk "uploads/a.edf" Sim.rec4) in
  exists raw cleaned ica excl r,
    res.1 = Ok (raw, cleaned, ica, excl)
    /\ store res.2 !! raw = Some (ORaw r)
    /\ length (data r) = 4%nat
    /\ length (ch_names r) = 4%nat
    /\ plot_raw_signal (lib := Sim.lib) raw "output/a_raw.html" 10 5 res.2
       = (Raise IndexError, res.2)
    /\ fs res.2 !! "output/a_raw.html" = None.
Proof.
  eexists _, _, _, _, _. split; [vm_compute; reflexivity|].
  split; [vm_compute; reflexivity|]. split; [reflexivity|]. split; [reflexivity|].
  split; [|vm_compute; reflexivity].
  eapply plot_raw_signal_few_channels; [vm_compute; reflexivity | vm_compute; lia].
Qed.

(** ** Further properties of the pipeline *)

(** Follows [preprocess_eeg] on a recording that is read. *)
Ltac follow_run Hrec :=
  let f := fresh "f" in
  let codec := fresh "codec" in
  let dec := fresh "dec" in
  let Hf := fresh "Hf" in
  let Hreader := fresh "Hreader" in
  let Hdec := fresh "Hdec" in
  destruct (recording_at_inv _ _ _ Hrec) as (f & codec & dec & Hf & Hdec & Hreader);
  match goal with
  | |- context [preprocess_eeg ?a ?b ?c ?d ?e ?g ?h ?i ?w] =>
      on_run (preprocess_eeg a b c d e g h i w);
      unfold preprocess_eeg; fold (Path.extension a)
  end;
  rewrite Hreader; clear Hreader;
  exec; intros ->; cbn [fst snd store next fs log].

(** Follows [preprocess_eeg] on any path with an accepted extension. *)
Ltac follow_any Hext :=
  let codec := fresh "codec" in
  let dec := fresh "dec" in
  let Hreader := fresh "Hreader" in
  destruct (reader_supported _ Hext) as (codec & dec & Hreader & _);
  match goal with
  | |- context [preprocess_eeg ?a ?b ?c ?d ?e ?g ?h ?i ?w] =>
      on_run (preprocess_eeg a b c d e g h i w);
      unfold preprocess_eeg; fold (Path.extension a)
  end;
  rewrite Hreader; clear Hreader;
  exec; intros ->; cbn [fst snd store next fs log].

Section Exports.

Context {lib : MNE}.

Variables (input_path fif_out_path csv_out_path : string) (l_freq h_freq : Q)
  (n_components : Z) (epoch_length : Q).

(** X1. Without epoching, what a run leaves on disk is what it returns: the
    cleaned series has its measurement date cleared and keeps the channels
    and sampling rate of the recording, the text export is its array, the
    structured export is the series itself, and the series returned first
    keeps the measurement date it was read with. *)
Theorem continuous_export_is_cleaned w raw0 :
  recording_at input_path w = Some raw0 ->
  let res := preprocess_eeg input_path fif_out_path csv_out_path l_freq h_freq
                            n_components false epoch_length w in
  forall raw cleaned ica excl,
    res.1 = Ok (raw, cleaned, ica, excl) ->
    exists c r,
      store res.2 !! cleaned = Some (ORaw c)
      /\ meas_date c = None
      /\ chs c = chs raw0 /\ bads c = bads raw0 /\ sfreq c = sfreq raw0
      /\ fs res.2 !! csv_out_path = Some (Csv (map (map Num) (data c)))
      /\ (fif_out_path <> csv_out_path -> fs res.2 !! fif_out_path = Some (FifRaw c))
      /\ store res.2 !! raw = Some (ORaw r)
      /\ meas_date r = meas_date raw0.
Proof.
  intros Hrec res. subst res.
  follow_run Hrec.
  all: intros raw cleaned ica excl Heq; try discriminate Heq.
  all: injection Heq as <- <- <- <-.
  all: repeat exec_step.
  all: eexists _, _; repeat split; try reflexivity.
  all: rewrite ?lookup_insert_eq; try reflexivity.
  all: intros Hne; rewrite lookup_insert_ne by congruence; by rewrite lookup_insert_eq.
Qed.

Lemma omap_length_le {A B} (f : A -> option B) (l : list A) :
  (length (omap f l) <= length l)%nat.
Proof.
  induction l as [|a l IH]; [reflexivity|]. cbn [omap list_omap].
  destruct (f a); cbn [length]; lia.
Qed.

(** Every window [mne.Epochs] keeps is complete: as many rows as the
    recording and exactly the window's number of samples in each. *)
Lemma epochs_of_windows r events tmin tmax :
  let e := epochs_of r events tmin tmax in
  ep_shape e = (length (data r), window_samples (sfreq r) tmin tmax)
  /\ Forall (fun win => length win = length (data r)
                        /\ Forall (fun row => length row = (ep_shape e).2) win)
            (ep_data e)
  /\ length (ep_events e) = length (ep_data e)
  /\ (length (ep_data e) <= length events)%nat.
Proof.
  unfold epochs_of. cbn [ep_shape ep_data ep_events snd].
  set (n := window_samples (sfreq r) tmin tmax).
  set (first := window_first (sfreq r) tmin).
  split; [reflexivity|]. split; [|split].
  - apply Forall_forall. intros win Hin.
    apply list_elem_of_In, in_map_iff in Hin as ([ev seg] & <- & Hin). cbn [snd].
    apply list_elem_of_In, list_elem_of_omap in Hin as (ev' & _ & Hcut).
    unfold cut_window in Hcut. destruct (ev' + first <? 0)%Z; [discriminate Hcut|].
    match type of Hcut with
    | context [forallb ?p ?l] => destruct (forallb p l) eqn:Hfull; [|discriminate Hcut]
    end.
    cbn [option_map] in Hcut. injection Hcut as _ <-. split; [by rewrite length_map|].
    rewrite forallb_forall in Hfull. apply Forall_forall. intros row Hrow.
    apply list_elem_of_In in Hrow. pose proof (Hfull row Hrow) as Hlen.
    apply Nat.leb_le in Hlen.
    apply in_map_iff in Hrow as (row0 & <- & _).
    rewrite length_take in Hlen |- *. lia.
  - by rewrite !length_map.
  - rewrite length_map. apply omap_length_le.
Qed.

Lemma events_need_positive_duration n sf duration evs :
  fixed_length_events n sf duration = inr evs -> (0 < duration)%Q.
Proof.
  unfold fixed_length_events. destruct (Qle_bool duration 0) eqn:H; [discriminate|].
  intros _. apply Qnot_le_lt. intros Hle. apply Qle_bool_iff in Hle. congruence.
Qed.

Lemma Qround_nonneg q : (0 <= q)%Q -> (0 <= Qround q)%Z.
Proof.
  destruct q as [n d]. unfold Qle. cbn [Qnum Qden]. intros Hn.
  unfold Qround. cbn [Qnum Qden].
  assert (0 <= n)%Z by lia.
  assert (0 <= n / Z.pos d)%Z by (apply Z.div_pos; lia).
  destruct (2 * (n mod Z.pos d) ?= Z.pos d)%Z; [destruct (Z.even _)|..]; lia.
Qed.

(** X2. With epoching, a run that returns has put the windowed series on disk:
    the text export is the mean over the windows kept, with one row per
    channel of the cleaned series and [round(epoch_length * sfreq) + 1]
    columns, since a window holds both of its end samples; every window kept
    has that shape. *)
Theorem epoched_export_shape w raw0 :
  recording_at input_path w = Some raw0 ->
  let res := preprocess_eeg input_path fif_out_path csv_out_path l_freq h_freq
                            n_components true epoch_length w in
  forall raw cleaned ica excl,
    res.1 = Ok (raw, cleaned, ica, excl) ->
    exists e d1 s d2 m,
      fir_filter l_freq h_freq raw0 = inr d1
      /\ back_project s excl (with_data raw0 d1) = inr d2
      /\ store res.2 !! cleaned = Some (OEpochs e)
      /\ ep_meas_date e = None
      /\ ep_chs e = chs raw0 /\ ep_sfreq e = sfreq raw0
      /\ ep_shape e = (length d2, window_samples (sfreq raw0) 0 epoch_length)
      /\ ((0 < sfreq raw0)%Q ->
          window_samples (sfreq raw0) 0 epoch_length
          = S (Z.to_nat (Qround (epoch_length * sfreq raw0)%Q)))
      /\ Forall (fun win => length win = length d2
                            /\ Forall (fun row => length row = (ep_shape e).2) win)
                (ep_data e)
      /\ fs res.2 !! csv_out_path = Some (Csv m)
      /\ m = mean_axis0 (ep_shape e, ep_data e)
      /\ length m = length d2
      /\ Forall (fun row => length row = (ep_shape e).2) m
      /\ (fif_out_path <> csv_out_path -> fs res.2 !! fif_out_path = Some (FifEpochs e)).
Proof.
  intros Hrec res. subst res.
  follow_run Hrec.
  all: intros raw cleaned ica excl Heq; try discriminate Heq.
  all: injection Heq as <- <- <- <-.
  all: repeat exec_step.
  all: match goal with
       | H : fixed_length_events _ _ ?L = inr ?evs,
         Hbp : back_project _ _ _ = inr ?d |- _ =>
           destruct (epochs_of_windows (with_data raw0 d) evs 0 L)
             as (Hshape & Hwins & _ & _);
           pose proof (events_need_positive_duration _ _ _ _ H) as HL
       end.
  all: rewrite ?sfreq_with_data, ?data_with_data in Hshape, Hwins.
  all: eexists _, _, _, _, _.
  all: split; [reflexivity|]. all: split; [eassumption|].
  all: split; [reflexivity|]. all: split; [reflexivity|].
  all: split; [reflexivity|]. all: split; [reflexivity|].
  all: cbn [ep_shape ep_data].
  all: split; [exact Hshape|].
  all: split; [intros Hsf; apply window_has_both_ends, Qround_nonneg, Qmult_le_0_compat;
               apply Qlt_le_weak; assumption|].
  all: split; [exact Hwins|].
  all: split; [reflexivity|]. all: split; [reflexivity|].
  all: split; [by rewrite (proj1 (mean_axis0_shape _ _)), Hshape|].
  all: split; [apply mean_axis0_shape|].
  all: intros Hne; rewrite lookup_insert_ne by congruence; by rewrite lookup_insert_eq.
Qed.

End Exports.

Section Effects.

Context {lib : MNE}.

Variables (input_path fif_out_path csv_out_path : string) (l_freq h_freq : Q)
  (n_components : Z) (epoch : bool) (epoch_length : Q).

#[local] Abbreviation run :=
  (preprocess_eeg input_path fif_out_path csv_out_path l_freq h_freq n_components
                  epoch epoch_length).

(** X3. When the recording has a usable EOG channel and scoring succeeds, the
    components it names are the exclude set: they are what the run returns,
    what the ICA object holds, and what the reconstruction is made with. *)
Theorem exclude_is_scoring_result w raw0 d1 s inds scores :
  recording_at input_path w = Some raw0 ->
  pick_types_eog raw0 <> [] ->
  fir_filter l_freq h_freq raw0 = inr d1 ->
  fastica (Z.min n_components (Z.of_nat (length (ch_names raw0)))) 97
          (with_data raw0 d1) = inr s ->
  eog_scores s (with_data raw0 d1) = inr (inds, scores) ->
  (forall raw cleaned ica excl,
     (run w).1 = Ok (raw, cleaned, ica, excl) ->
     excl = inds
     /\ (exists i, store (run w).2 !! ica = Some (OICA i) /\ exclude i = inds)
     /\ exists d2,
          back_project s inds (with_data raw0 d1) = inr d2
          /\ (epoch = false ->
              store (run w).2 !! cleaned
              = Some (ORaw (mkRaw (chs raw0) (bads raw0) (sfreq raw0) d2 None))))
  /\ (forall e, back_project s inds (with_data raw0 d1) = inl e ->
        (run w).1 = Raise (MNEError e))
  /\ (forall d2,
        back_project s inds (with_data raw0 d1) = inr d2 ->
        epoch = false ->
        write_error fif_out_path = None ->
        write_error csv_out_path = None ->
        (run w).1 = Ok (next w, S (S (next w)), S (next w), inds)).
Proof.
  intros Hrec Hsome Hfilter Hfit Hscore.
  destruct (pick_types_eog raw0) as [|c cs] eqn:Hpick; [done|].
  follow_run Hrec.
  all: (split; [|split]);
    [ intros raw cleaned ica excl Heq; try discriminate Heq
    | intros e He; first [discriminate He | congruence]
    | intros d2 Hbp Hep Hw1 Hw2; first [reflexivity | congruence] ].
  all: injection Heq as <- <- <- <-.
  all: repeat exec_step.
  all: split; [reflexivity|]; split; [eexists; split; reflexivity|].
  all: eexists; split; [reflexivity|]; intros Hep; first [reflexivity | discriminate Hep].
Qed.

Lemma run_frame w :
  (forall path, path <> fif_out_path -> path <> csv_out_path ->
     fs (run w).2 !! path = fs w !! path)
  /\ (forall r, (r < next w)%nat -> store (run w).2 !! r = store w !! r)
  /\ (next w <= next (run w).2)%nat.
Proof.
  destruct (extension_cases input_path) as [Hext|[Hedf Hfif]].
  2: { rewrite (unsupported_run _ _ _ _ _ _ _ _ w Hedf Hfif). simpl. by repeat split. }
  follow_any Hext.
  all: split; [intros path Hnfif Hncsv | split; [intros old Hold | lia]].
  all: rewrite ?lookup_insert_ne by first [congruence | lia]; reflexivity.
Qed.

Lemma returned_run_has_exports w v :
  (run w).1 = Ok v ->
  is_Some (fs (run w).2 !! fif_out_path) /\ is_Some (fs (run w).2 !! csv_out_path).
Proof.
  destruct (extension_cases input_path) as [Hext|[Hedf Hfif]].
  2: { by rewrite (unsupported_run _ _ _ _ _ _ _ _ w Hedf Hfif). }
  follow_any Hext.
  all: intros Heq; try discriminate Heq.
  all: clear Heq; split.
  all: first [ by rewrite lookup_insert_eq
             | destruct (decide (csv_out_path = fif_out_path)) as [->|Hne];
               [ by rewrite lookup_insert_eq
               | rewrite lookup_insert_ne by exact Hne; by rewrite lookup_insert_eq ] ].
Qed.

(** X4. A run writes to the two output paths and nowhere else, and it works on
    objects of its own: every other path of the file system and every object
    that existed before the call are as they were. *)
Theorem run_touches_outputs_only w :
  let res := preprocess_eeg input_path fif_out_path csv_out_path l_freq h_freq
                            n_components epoch epoch_length w in
  (forall path, path <> fif_out_path -> path <> csv_out_path ->
     fs res.2 !! path = fs w !! path)
  /\ (forall r, (r < next w)%nat -> store res.2 !! r = store w !! r)
  /\ (next w <= next res.2)%nat.
Proof. intros res. exact (run_frame w). Qed.

(** X5. When a run fails, the file system is as it was, unless the text export
    is the step that failed: then the structured export is already on disk. *)
Theorem failed_run_on_disk w e :
  let res := preprocess_eeg input_path fif_out_path csv_out_path l_freq h_freq
                            n_components epoch epoch_length w in
  res.1 = Raise e ->
  fs res.2 = fs w
  \/ exists f err,
       fs res.2 = <[fif_out_path := f]> (fs w)
       /\ write_error fif_out_path = None
       /\ write_error csv_out_path = Some err
       /\ e = MNEError err.
Proof.
  intros res. subst res.
  destruct (extension_cases input_path) as [Hext|[Hedf Hfif]].
  2: { rewrite (unsupported_run _ _ _ _ _ _ _ _ w Hedf Hfif). by left. }
  follow_any Hext.
  all: intros Heq; try discriminate Heq; injection Heq as <-.
  all: first [by left | right; eexists _, _; repeat split; eassumption || reflexivity].
Qed.

End Effects.

(** ** The filter works in place

    The series a run creates or changes are the one it read, which it has
    filtered, and what the reconstruction made of a copy of the filtered
    one: the signal as read is not kept anywhere. *)

Section FilterInPlace.

Context {lib : MNE}.

Variables (input_path fif_out_path csv_out_path : string) (l_freq h_freq : Q)
  (n_components : Z) (epoch : bool) (epoch_length : Q).

(** Every series in the store of a run that has returned was there before,
    unchanged, or is the returned first element, holding the filtered array,
    or holds what the reconstruction made from the filtered series and the
    fitted decomposition. *)
Lemma series_after_run w raw0 :
  recording_at input_path w = Some raw0 ->
  let res := preprocess_eeg input_path fif_out_path csv_out_path l_freq h_freq
                            n_components epoch epoch_length w in
  forall raw cleaned ica excl,
    res.1 = Ok (raw, cleaned, ica, excl) ->
    exists d,
      fir_filter l_freq h_freq raw0 = inr d
      /\ store res.2 !! raw = Some (ORaw (with_data raw0 d))
      /\ forall ref v,
           store res.2 !! ref = Some (ORaw v) ->
           store w !! ref = Some (ORaw v)
           \/ (ref = raw /\ v = with_data raw0 d)
           \/ (exists s d2,
                 fastica (Z.min n_components (Z.of_nat (length (ch_names raw0)))) 97
                         (with_data raw0 d) = inr s
                 /\ back_project s excl (with_data raw0 d) = inr d2
                 /\ data v = d2).
Proof.
  intros Hrec res. subst res.
  follow_run Hrec.
  all: intros raw cleaned ica excl Heq; try discriminate Heq.
  all: injection Heq as <- <- <- <-.
  all: repeat exec_step.
  all: eexists; split; [reflexivity|]; split; [reflexivity|].
  all: intros ref v Hlook.
  all: repeat match type of Hlook with
       | <[?k := _]> _ !! ?r = _ =>
           first [ rewrite lookup_insert_ne in Hlook by congruence
                 | destruct (decide (r = k)) as [->|?];
                   [ rewrite lookup_insert_eq in Hlook
                   | rewrite lookup_insert_ne in Hlook by congruence ] ]
       end.
  all: try discriminate Hlook.
  all: try (left; exact Hlook).
  all: injection Hlook as <-.
  all: first [ right; left; split; reflexivity
             | right; right; eexists _, _;
               split; [eassumption | split; [eassumption | reflexivity]] ].
Qed.

End FilterInPlace.

(** C5, on the 4-channel recording.  The run returns; the series it
    returns first, which the docstring and the application present as the
    raw signal, holds the output of the filter and not the signal that was
    read; no series in the store holds the signal as read; so the reading of
    the filter stage as one that leaves its input alone fails. *)
Theorem raw_signal_lost_by_filtering :
  let w := Sim.disk "uploads/a.edf" Sim.rec4 in
  let res := preprocess_eeg (lib := Sim.lib) "uploads/a.edf" "output/a_cleaned.fif"
               "output/a_cleaned.csv" 1 40 15 false 2 w in
  exists raw cleaned ica excl v,
    recording_at (lib := Sim.lib) "uploads/a.edf" w = Some Sim.rec4
    /\ res.1 = Ok (raw, cleaned, ica, excl)
    /\ store res.2 !! raw = Some (ORaw v)
    /\ fir_filter (MNE := Sim.lib) 1 40 Sim.rec4 = inr (data v)
    /\ data v <> data Sim.rec4
    /\ (forall ref u, store res.2 !! ref = Some (ORaw u) -> data u <> data Sim.rec4)
    /\ ~ returns_unfiltered_raw (lib := Sim.lib) "uploads/a.edf" "output/a_cleaned.fif"
           "output/a_cleaned.csv" 1 40 15 false 2 w.
Proof.
  intros w res.
  assert (Hrec : recording_at (lib := Sim.lib) "uploads/a.edf" w = Some Sim.rec4)
    by (vm_compute; reflexivity).
  assert (Hres : res.1 = Ok (0%nat, 2%nat, 1%nat, [])) by (vm_compute; reflexivity).
  destruct (series_after_run (lib := Sim.lib) "uploads/a.edf" "output/a_cleaned.fif"
              "output/a_cleaned.csv" 1 40 15 false 2 w Sim.rec4 Hrec
              0%nat 2%nat 1%nat [] Hres) as (d & Hd & Hraw & Hall).
  fold res in Hraw, Hall.
  assert (Hd' : map Sim.remove_mean (data Sim.rec4) = d).
  { apply (f_equal (fun x : mne_error + matrix =>
                      match x with inr y => y | inl _ => [] end)) in Hd. exact Hd. }
  subst d.
  set (d := map Sim.remove_mean (data Sim.rec4)) in *.
  assert (Hfirst : forall m : matrix,
            hd (0 # 1)%Q (hd [] m) = hd (0 # 1)%Q (hd [] d) -> m <> data Sim.rec4).
  { intros m Hm ->. vm_compute in Hm. discriminate Hm. }
  exists 0%nat, 2%nat, 1%nat, [], (with_data Sim.rec4 d).
  split; [exact Hrec|]. split; [exact Hres|]. split; [exact Hraw|].
  split; [reflexivity|]. split; [apply Hfirst; reflexivity|].
  split; [|exact returned_raw_is_filtered].
  intros ref u Hu.
  destruct (Hall ref u Hu) as [Hold | [[_ ->] | (s & d2 & _ & Hd2 & Hu2)]].
  - unfold w, Sim.disk in Hold. cbn [store] in Hold.
    rewrite lookup_empty in Hold. discriminate Hold.
  - apply Hfirst. reflexivity.
  - assert (Hd2' : Sim.zero_rows [] d = d2).
    { apply (f_equal (fun x : mne_error + matrix =>
                        match x with inr y => y | inl _ => [] end)) in Hd2. exact Hd2. }
    rewrite Hu2, <- Hd2'. apply Hfirst. vm_compute. reflexivity.
Qed.

(** ** The upload allow-list and the entry point *)

Section AllowList.

Import Path App.

Lemma rfind_from_range c s i acc :
  rfind_from c s i acc = acc
  \/ (i <= rfind_from c s i acc < i + Z.of_nat (String.length s))%Z.
Proof.
  revert i acc. induction s as [|a s IH]; intros i acc; cbn [rfind_from String.length].
  - by left.
  - destruct (IH (i + 1)%Z (if Ascii.eqb a c then i else acc)) as [-> | H].
    + destruct (Ascii.eqb a c); [right; lia | by left].
    + right. lia.
Qed.

Lemma rfind_range c s :
  rfind c s = (-1)%Z \/ (0 <= rfind c s < Z.of_nat (String.length s))%Z.
Proof. unfold rfind. destruct (rfind_from_range c s 0 (-1)) as [->|H]; [by left | by right]. Qed.

(** [rfind_from] counts from [i] and falls back on [acc]. *)
Lemma rfind_from_shift c s i acc :
  rfind_from c s i acc = if (rfind c s <? 0)%Z then acc else (i + rfind c s)%Z.
Proof.
  unfold rfind. revert i acc. induction s as [|a s IH]; intros i acc; cbn [rfind_from].
  - reflexivity.
  - rewrite (IH (i + 1)%Z), (IH (0 + 1)%Z).
    destruct (rfind_from_range c s 0 (-1)) as [Hr|Hr].
    + rewrite Hr. cbn. destruct (Ascii.eqb a c); cbn; [f_equal; lia | reflexivity].
    + destruct (Z.ltb_spec (rfind_from c s 0 (-1)) 0); [lia|].
      destruct (Z.ltb_spec (0 + 1 + rfind_from c s 0 (-1)) 0); lia.
Qed.

Lemma rfind_from_app c a b i acc :
  rfind_from c (a ++ b) i acc
  = rfind_from c b (i + Z.of_nat (String.length a)) (rfind_from c a i acc).
Proof.
  revert i acc. induction a as [|x a IH]; intros i acc.
  - simpl. f_equal. lia.
  - simpl. rewrite IH. f_equal. lia.
Qed.

Lemma rfind_app c a b :
  rfind c (a ++ b)
  = if (rfind c b <? 0)%Z then rfind c a
    else (Z.of_nat (String.length a) + rfind c b)%Z.
Proof.
  unfold rfind at 1. rewrite rfind_from_app, rfind_from_shift. reflexivity.
Qed.

Lemma rfind_cons c a s :
  rfind c (String a s)
  = if (rfind c s <? 0)%Z then (if Ascii.eqb a c then 0 else -1)%Z
    else (1 + rfind c s)%Z.
Proof. exact (rfind_app c (String a "") s). Qed.

Lemma contains_rfind c s : contains c s = negb (rfind c s <? 0)%Z.
Proof.
  induction s as [|a s IH]; [reflexivity|].
  rewrite rfind_cons. cbn [contains]. rewrite IH.
  destruct (rfind_range c s) as [Hr|Hr].
  - rewrite Hr. cbn. by destruct (Ascii.eqb a c).
  - destruct (Z.ltb_spec (rfind c s) 0); [lia|]. cbn [negb].
    destruct (Z.ltb_spec (1 + rfind c s) 0); [lia|]. by rewrite orb_true_r.
Qed.

Lemma get_rfind c s :
  (0 <= rfind c s)%Z -> String.get (Z.to_nat (rfind c s)) s = Some c.
Proof.
  induction s as [|a s IH]; [unfold rfind; cbn; lia|].
  rewrite rfind_cons.
  destruct (rfind_range c s) as [Hr|Hr].
  - rewrite Hr. cbn.
    destruct (Ascii.eqb_spec a c) as [->|]; [reflexivity | lia].
  - destruct (Z.ltb_spec (rfind c s) 0); [lia|]. intros _.
    replace (Z.to_nat (1 + rfind c s)) with (S (Z.to_nat (rfind c s))) by lia.
    cbn [String.get]. apply IH. lia.
Qed.

Lemma substring_head n m s c :
  String.get n s = Some c -> substring n (S m) s = String c (substring (S n) m s).
Proof.
  revert n. induction s as [|a s IH]; intros [|n]; cbn [String.get substring]; try done.
  - intros [= ->]. by destruct s.
  - intros H. by rewrite (IH _ H).
Qed.

Lemma get_app_r a b n : String.get (String.length a + n) (a ++ b) = String.get n b.
Proof. induction a as [|x a IH]; [reflexivity | exact IH]. Qed.

Lemma substring_app_r a b n m :
  substring (String.length a + n) m (a ++ b) = substring n m b.
Proof. induction a as [|x a IH]; [reflexivity | exact IH]. Qed.

Lemma has_non_dot_app_r a b i n :
  has_non_dot (a ++ b) (String.length a + i) n = has_non_dot b i n.
Proof.
  revert i. induction n as [|n IH]; intros i; cbn [has_non_dot]; [reflexivity|].
  rewrite get_app_r. destruct (String.get i b); [|reflexivity].
  replace (S (String.length a + i)) with (String.length a + S i)%nat by lia.
  by rewrite IH.
Qed.

Lemma string_length_app a b : String.length (a ++ b) = (String.length a + String.length b)%nat.
Proof. induction a as [|x a IH]; simpl; [reflexivity | by rewrite IH]. Qed.

(** What [allowed_file] computes: it never raises, and it looks at what
    follows the last dot. *)
Lemma allowed_file_spec filename :
  allowed_file filename
  = Ok (negb (rfind "." filename <? 0)%Z
        && bool_decide (lower (substring (Z.to_nat (rfind "." filename) + 1)
                                 (String.length filename
                                  - (Z.to_nat (rfind "." filename) + 1)) filename)
                        ∈ ALLOWED_EXTENSIONS)).
Proof.
  unfold allowed_file, rsplit1. rewrite contains_rfind.
  destruct (rfind "." filename <? 0)%Z; reflexivity.
Qed.

Lemma extension_in_uploads filename :
  contains "/" filename = false ->
  extension (join UPLOAD_FOLDER filename)
  = if negb (rfind "." filename <? 0)%Z && has_stem filename
    then lower (String "." (substring (Z.to_nat (rfind "." filename) + 1)
                                      (String.length filename
                                       - (Z.to_nat (rfind "." filename) + 1)) filename))
    else "".
Proof.
  intros Hsep. rewrite contains_rfind in Hsep. apply negb_false_iff, Z.ltb_lt in Hsep.
  assert (Hjoin : join UPLOAD_FOLDER filename = "uploads/" ++ filename).
  { unfold join. destruct filename as [|a s]; [reflexivity|]. cbn [startswith].
    destruct (Ascii.eqb_spec a "/") as [->|]; [|reflexivity].
    rewrite rfind_cons in Hsep.
    destruct (rfind_range "/" s) as [Hr|Hr].
    - rewrite Hr in Hsep. cbn in Hsep. lia.
    - destruct (Z.ltb_spec (rfind "/" s) 0); lia. }
  rewrite Hjoin. unfold extension, splitext. rewrite !rfind_app.
  destruct (Z.ltb_spec (rfind "/" filename) 0) as [_|]; [|lia].
  change (rfind "/" "uploads/") with 7%Z. change (rfind "." "uploads/") with (-1)%Z.
  change (String.length "uploads/") with 8%nat.
  destruct (rfind_range "." filename) as [Hr|Hr].
  - rewrite Hr. reflexivity.
  - destruct (Z.ltb_spec (rfind "." filename) 0) as [|_]; [lia|].
    destruct (Z.ltb_spec 7 (Z.of_nat 8 + rfind "." filename)) as [_|]; [|lia].
    cbn [negb andb].
    replace (Z.to_nat (7 + 1)) with (String.length "uploads/" + 0)%nat by reflexivity.
    replace (Z.to_nat (Z.of_nat 8 + rfind "." filename - (7 + 1)))
      with (Z.to_nat (rfind "." filename)) by lia.
    rewrite has_non_dot_app_r. fold (has_stem filename).
    destruct (has_stem filename); [|reflexivity]. cbn [snd].
    replace (Z.to_nat (Z.of_nat 8 + rfind "." filename))
      with (String.length "uploads/" + Z.to_nat (rfind "." filename))%nat
      by (change (String.length "uploads/") with 8%nat; lia).
    rewrite substring_app_r, string_length_app.
    replace (String.length "uploads/" + String.length filename
             - (String.length "uploads/" + Z.to_nat (rfind "." filename)))%nat
      with (S (String.length filename - (Z.to_nat (rfind "." filename) + 1)))
      by (change (String.length "uploads/") with 8%nat; lia).
    rewrite (substring_head _ _ _ "."); [|apply get_rfind; lia].
    do 3 f_equal. lia.
Qed.

Lemma allowed_iff filename :
  allowed_file filename = Ok true
  <-> (0 <= rfind "." filename)%Z
      /\ let ext := lower (substring (Z.to_nat (rfind "." filename) + 1)
                                    (String.length filename
                                     - (Z.to_nat (rfind "." filename) + 1)) filename) in
         ext = "edf" \/ ext = "fif".
Proof.
  rewrite allowed_file_spec. cbv zeta. unfold ALLOWED_EXTENSIONS.
  destruct (Z.ltb_spec (rfind "." filename) 0) as [Hneg|Hpos]; cbn [negb andb].
  - split; [discriminate | lia].
  - split.
    + intros [= Hin]. apply bool_decide_eq_true in Hin. split; [lia|].
      rewrite !elem_of_cons in Hin. destruct Hin as [?|[?|Hnil]]; [by left | by right |].
      by apply elem_of_nil in Hnil.
    + intros [_ Hext]. f_equal. apply bool_decide_eq_true. rewrite !elem_of_cons.
      destruct Hext; [by left | by right; left].
Qed.

(** X6. [allowed_file] never raises, refuses a name without a dot, and does not
    look at the case of a name. *)
Theorem allowed_file_total_and_case_blind filename :
  (exists b, allowed_file filename = Ok b)
  /\ (contains "." filename = false -> allowed_file filename = Ok false)
  /\ allowed_file (lower filename) = allowed_file filename.
Proof.
  split; [rewrite allowed_file_spec; by eexists|]. split.
  - intros Hdot. unfold allowed_file. by rewrite Hdot.
  - rewrite !allowed_file_spec. unfold rfind.
    rewrite rfind_from_lower by (by left). rewrite lower_length, substring_lower, lower_idem.
    reflexivity.
Qed.

Section WithLibrary.

Context {lib : MNE}.

Variables (fif_out_path csv_out_path : string) (l_freq h_freq : Q)
  (n_components : Z) (epoch : bool) (epoch_length : Q).

(** X7. The upload allow-list and the entry point agree on a file name, except
    on names without a stem: for a name with no slash, preprocessing the file
    in the upload folder does not stop on the unsupported-format error
    exactly when [allowed_file] accepts the name and something other than
    dots comes before its last dot.  So every upload the entry point takes
    was allowed, and a name such as [.edf] is allowed and then refused. *)
Theorem allow_list_and_entry_point filename w :
  contains "/" filename = false ->
  (~ unsupported (preprocess_eeg (join UPLOAD_FOLDER filename) fif_out_path csv_out_path
                                 l_freq h_freq n_components epoch epoch_length w))
  <-> allowed_file filename = Ok true /\ has_stem filename = true.
Proof.
  intros Hsep. rewrite unsupported_iff, (extension_in_uploads _ Hsep), allowed_iff.
  cbv zeta.
  destruct (Z.ltb_spec (rfind "." filename) 0) as [Hneg|Hpos]; cbn [negb andb].
  - split; [intros H; exfalso; apply H; by split | intros [[? _] _]; lia].
  - destruct (has_stem filename); cbn [negb andb].
    + cbn [lower]. change (lower_char ".") with "."%char.
      set (ext := lower (substring _ _ _)). split.
      * intros H. split; [|reflexivity]. split; [lia|].
        destruct (String.eqb_spec ext "edf") as [|Hedf]; [by left|].
        destruct (String.eqb_spec ext "fif") as [|Hfif]; [by right|].
        exfalso. apply H. split; congruence.
      * intros [[_ [-> | ->]] _] [H1 H2]; congruence.
    + split; [intros H; exfalso; apply H; by split | intros [_ ?]; discriminate].
Qed.

End WithLibrary.

End AllowList.

(** ** The retention sweep *)

Section Sweep.

Import App.

Variables (now max_age_hours : Q).

#[local] Abbreviation step := (cleanup_step now (max_age_hours * 3600)%Q).
#[local] Abbreviation expired := (App.expired now max_age_hours).

Lemma filter_agree {A} (P1 P2 : A -> Prop)
    `{!forall x, Decision (P1 x), !forall x, Decision (P2 x)} (l : list A) :
  (forall x, x ∈ l -> P1 x <-> P2 x) -> filter P1 l = filter P2 l.
Proof.
  induction l as [|a l IH]; intros Hiff; [done|].
  assert (Hl : forall x, x ∈ l -> P1 x <-> P2 x)
    by (intros x Hx; apply Hiff; by apply list_elem_of_further).
  pose proof (Hiff a (list_elem_of_here _ _)) as Ha.
  destruct (decide (P1 a)) as [Hp|Hp].
  - rewrite (filter_cons_True P1) by exact Hp.
    rewrite (filter_cons_True P2) by (by apply Ha). by rewrite IH.
  - rewrite (filter_cons_False P1) by exact Hp.
    rewrite (filter_cons_False P2) by (by rewrite <- Ha). by rewrite IH.
Qed.

Lemma sweep_loop (names : list string) :
  forall (deleted : list string) (dir : gmap string entry),
    NoDup names ->
    let res := fold_left step names (deleted, dir) in
    res.1 = (deleted ++ filter (fun n => from_option expired false (dir !! n) = true) names)%list
    /\ forall n,
         res.2 !! n
         = if bool_decide (n ∈ names) && from_option expired false (dir !! n)
           then None else dir !! n.
Proof.
  induction names as [|a names IH]; intros deleted dir Hnd; cbn [fold_left].
  - split; [by rewrite app_nil_r|]. intros n. by rewrite bool_decide_eq_false_2 by apply not_elem_of_nil.
  - apply NoDup_cons in Hnd as [Ha Hnd].
    assert (Hstep : step (deleted, dir) a
                    = if from_option expired false (dir !! a)
                      then ((deleted ++ [a])%list, delete a dir) else (deleted, dir)).
    { unfold cleanup_step, App.expired. cbn [fst snd]. destruct (dir !! a) as [e|]; [|reflexivity].
      cbn [from_option]. destruct (is_file e), (Qltb _ _), (removable e); reflexivity. }
    rewrite Hstep. rewrite filter_cons.
    destruct (from_option expired false (dir !! a)) eqn:Hexp.
    + destruct (IH (deleted ++ [a])%list (delete a dir) Hnd) as [Hdel Hdir].
      destruct (decide (true = true)) as [_|Hno]; [|done]. split.
      * rewrite Hdel, <- app_assoc. cbn [app]. do 2 f_equal.
        apply filter_agree. intros n Hn.
        rewrite lookup_delete_ne by (intros ->; contradiction). reflexivity.
      * intros n. rewrite Hdir. destruct (decide (n = a)) as [->|Hne].
        -- rewrite lookup_delete_eq, Hexp.
           rewrite (bool_decide_eq_true_2 (a ∈ a :: names)) by apply list_elem_of_here.
           cbn. by destruct (bool_decide _).
        -- rewrite lookup_delete_ne by done.
           replace (bool_decide (n ∈ a :: names)) with (bool_decide (n ∈ names)); [done|].
           apply bool_decide_ext. rewrite elem_of_cons. split; [by right | by intros [?|?]].
    + destruct (IH deleted dir Hnd) as [Hdel Hdir].
      destruct (decide (false = true)) as [Hno|_]; [done|]. split; [exact Hdel|].
      intros n. rewrite Hdir. destruct (decide (n = a)) as [->|Hne].
      * rewrite Hexp, !andb_false_r. reflexivity.
      * replace (bool_decide (n ∈ a :: names)) with (bool_decide (n ∈ names)); [done|].
        apply bool_decide_ext. rewrite elem_of_cons. split; [by right | by intros [?|?]].
Qed.

Lemma Qltb_lt a b : Qltb a b = true <-> (a < b)%Q.
Proof.
  unfold Qltb. rewrite negb_true_iff. split.
  - intros H. apply Qnot_le_lt. intros Hle. apply Qle_bool_iff in Hle. congruence.
  - intros H. destruct (Qle_bool b a) eqn:E; [|reflexivity].
    apply Qle_bool_iff in E. by apply Qlt_not_le in H.
Qed.

Lemma listdir_elem folder n : n ∈ listdir folder <-> is_Some (folder !! n).
Proof.
  unfold listdir. rewrite list_elem_of_fmap. split.
  - intros ([k e] & -> & Hin). apply elem_of_map_to_list in Hin. by exists e.
  - intros [e He]. exists (n, e). split; [done|]. by apply elem_of_map_to_list.
Qed.

(** What the sweep does to a folder, entry by entry, and what it reports. *)
Lemma cleanup_lookup folder :
  let res := cleanup_old_files now folder max_age_hours in
  (forall n, res.2 !! n
             = match folder !! n with
               | Some e => if expired e then None else Some e
               | None => None
               end)
  /\ (forall n, n ∈ res.1 <-> exists e, folder !! n = Some e /\ expired e = true)
  /\ NoDup res.1.
Proof.
  unfold cleanup_old_files.
  destruct (sweep_loop (listdir folder) [] folder (NoDup_fst_map_to_list folder))
    as [Hdel Hdir].
  cbv zeta in *. rewrite Hdel. cbn [app]. split; [|split].
  - intros n. rewrite Hdir. destruct (folder !! n) as [e|] eqn:He; cbn [from_option].
    + rewrite bool_decide_eq_true_2 by (apply listdir_elem; by exists e). reflexivity.
    + by rewrite andb_false_r.
  - intros n. rewrite list_elem_of_filter, listdir_elem. split.
    + intros [Hexp [e He]]. rewrite He in Hexp. by exists e.
    + intros (e & He & Hexp). rewrite He. split; [exact Hexp | by exists e].
  - apply NoDup_filter, NoDup_fst_map_to_list.
Qed.

(** X8. The sweep removes the regular files older than the retention period
    and nothing else: such a file, when [os.remove] succeeds on it, is gone
    and reported; a folder entry that is a directory, or modified within the
    period, or that cannot be removed, is kept as it is and is not reported;
    every name reported was a regular file older than the period and is gone;
    nothing is added or altered. *)
Theorem cleanup_removes_only_old_files folder :
  let res := cleanup_old_files now folder max_age_hours in
  (forall n e, folder !! n = Some e ->
     is_file e = true -> (max_age_hours * 3600 < now - mtime e)%Q ->
     removable e = true ->
     n ∈ res.1 /\ res.2 !! n = None)
  /\ (forall n e, folder !! n = Some e ->
     is_file e = false \/ (now - mtime e <= max_age_hours * 3600)%Q
     \/ removable e = false ->
     res.2 !! n = Some e /\ n ∉ res.1)
  /\ (forall n, n ∈ res.1 ->
        res.2 !! n = None
        /\ exists e, folder !! n = Some e /\ is_file e = true
                     /\ (max_age_hours * 3600 < now - mtime e)%Q)
  /\ (forall n e, res.2 !! n = Some e -> folder !! n = Some e)
  /\ NoDup res.1.
Proof.
  destruct (cleanup_lookup folder) as (Hdir & Hdel & Hnd). cbv zeta in *.
  split; [|split; [|split; [|split; [|exact Hnd]]]].
  - intros n e He Hfile Hage Hrm.
    assert (Hexp : expired e = true).
    { unfold App.expired. apply Qltb_lt in Hage. by rewrite Hfile, Hage, Hrm. }
    split.
    + apply Hdel. by exists e.
    + by rewrite Hdir, He, Hexp.
  - intros n e He Hkeep.
    assert (Hexp : expired e = false).
    { unfold App.expired. destruct Hkeep as [-> | [Hage | ->]]; [reflexivity | |].
      - destruct (Qltb _ _) eqn:Hlt; [|by rewrite andb_false_r].
        apply Qltb_lt in Hlt. by apply Qlt_not_le in Hlt.
      - by rewrite andb_false_r. }
    split.
    + by rewrite Hdir, He, Hexp.
    + rewrite Hdel. intros (e' & He' & Hexp'). congruence.
  - intros n Hn. apply Hdel in Hn as (e & He & Hexp). split.
    + by rewrite Hdir, He, Hexp.
    + exists e. unfold App.expired in Hexp.
      apply andb_true_iff in Hexp as [Hexp _]. apply andb_true_iff in Hexp as [Hfile Hage].
      split; [done|]. split; [done|]. by apply Qltb_lt.
  - intros n e. rewrite Hdir. destruct (folder !! n) as [e'|]; [|done].
    destruct (expired e'); [done | congruence].
Qed.

(** X9. After a sweep no removable regular file older than the period is left,
    and a second sweep at the same time removes nothing. *)
Theorem cleanup_again_removes_nothing folder :
  let res := cleanup_old_files now folder max_age_hours in
  (forall n e, res.2 !! n = Some e -> is_file e = true ->
     (max_age_hours * 3600 < now - mtime e)%Q -> removable e = false)
  /\ cleanup_old_files now res.2 max_age_hours = ([], res.2).
Proof.
  destruct (cleanup_lookup folder) as (Hdir & _ & _). cbv zeta in *.
  set (folder' := (cleanup_old_files now folder max_age_hours).2) in *.
  assert (Hleft : forall n e, folder' !! n = Some e -> expired e = false).
  { intros n e. rewrite Hdir. destruct (folder !! n) as [e'|]; [|done].
    destruct (expired e') eqn:Hexp; [done|]. by intros [= <-]. }
  split.
  - intros n e He Hfile Hage. apply Hleft in He. unfold App.expired in He.
    apply Qltb_lt in Hage. rewrite Hfile, Hage in He. exact He.
  - destruct (cleanup_lookup folder') as (Hdir' & Hdel' & _). cbv zeta in *.
    destruct (cleanup_old_files now folder' max_age_hours) as [deleted folder''].
    cbn [fst snd] in *. f_equal.
    + apply elem_of_nil_inv. intros n Hn. apply Hdel' in Hn as (e & He & Hexp).
      apply Hleft in He. congruence.
    + apply map_eq. intros n. rewrite Hdir'.
      destruct (folder' !! n) as [e|] eqn:He; [|done]. by rewrite (Hleft n e He).
Qed.

End Sweep.

(** ** The renderers and the results page *)

Section Rendering.

Context {lib : MNE}.

Lemma for_each_pure {A S : Type} (body : S -> A -> M S) (l : list A) :
  (forall s a w, (body s a w).2 = w) ->
  forall s w, (for_each body l s w).2 = w.
Proof.
  intros Hbody. induction l as [|a l IH]; intros s w; [reflexivity|].
  cbn [for_each]. unfold bind. pose proof (Hbody s a w) as Hw.
  destruct (body s a w) as [[s'|e] w']; cbn [snd] in Hw; subst w'; [apply IH | reflexivity].
Qed.

Lemma index_pure {A} (l : list A) i w : (index l i w).2 = w.
Proof. unfold index. by destruct (l !! i). Qed.

Lemma write_html_renders fig out : renders out (write_html fig out).
Proof.
  intros w. unfold write_html, write, called, bind.
  destruct (write_error out) as [err|]; cbn [fst snd store next fs raise].
  - repeat split; try done.
  - repeat split; try done.
    + intros p Hp. by rewrite lookup_insert_ne.
    + intros p Hsome. rewrite lookup_insert. by case_decide.
    + intros _. rewrite lookup_insert_eq. by eexists.
Qed.

Lemma renders_after_pure {A} (m : M A) (k : A -> M unit) out :
  (forall w, (m w).2 = w) ->
  (forall a, renders out (k a)) ->
  renders out (bind m k).
Proof.
  intros Hm Hk w. unfold bind. pose proof (Hm w) as Hw.
  destruct (m w) as [[a|e] w']; cbn [snd] in Hw; subst w'.
  - apply Hk.
  - cbn [fst snd]. repeat split; done.
Qed.

Lemma renders_same_files {A} (m : M A) (k : A -> M unit) out :
  (forall w, store (m w).2 = store w /\ next (m w).2 = next w /\ fs (m w).2 = fs w) ->
  (forall a, renders out (k a)) ->
  renders out (bind m k).
Proof.
  intros Hm Hk w. unfold bind. destruct (Hm w) as (Hst & Hnx & Hfs).
  destruct (m w) as [[a|e] w']; cbn [fst snd] in *.
  - destruct (Hk a w') as (Hst' & Hnx' & Hfr & Hmono & Hout).
    rewrite Hst', Hnx', Hst, Hnx. repeat split; try done.
    + intros p Hp. by rewrite Hfr, Hfs.
    + intros p Hsome. apply Hmono. by rewrite Hfs.
  - rewrite Hst, Hnx, Hfs. repeat split; done.
Qed.

Lemma load_raw_pure r w : (load_raw r w).2 = w.
Proof. unfold load_raw, load, bind. destruct (store w !! r) as [[]|]; reflexivity. Qed.

Lemma plot_raw_signal_renders raw out duration n_channels :
  renders out (plot_raw_signal raw out duration n_channels).
Proof.
  unfold plot_raw_signal. apply renders_after_pure; [apply load_raw_pure|]. intros r.
  apply renders_after_pure; [|intros fig; apply write_html_renders].
  intros w. apply for_each_pure. intros s i w'. unfold bind.
  pose proof (index_pure (raw_getitem r n_channels (Qtrunc (float_mul duration (sfreq r)))).1 i w') as H1.
  destruct (index _ i w') as [[row|e] w1]; cbn [snd] in H1; subst w1; [|reflexivity].
  pose proof (index_pure (ch_names r) i w') as H2.
  destruct (index (ch_names r) i w') as [[nm|e] w2]; cbn [snd] in H2; subst w2; reflexivity.
Qed.

Lemma plot_cleaned_signal_renders cleaned out duration n_channels :
  renders out (plot_cleaned_signal cleaned out duration n_channels).
Proof.
  unfold plot_cleaned_signal. apply renders_after_pure; [apply load_raw_pure|]. intros r.
  apply renders_after_pure; [|intros fig; apply write_html_renders].
  intros w. apply for_each_pure. intros s i w'. unfold bind.
  pose proof (index_pure (raw_getitem r n_channels (Qtrunc (float_mul duration (sfreq r)))).1 i w') as H1.
  destruct (index _ i w') as [[row|e] w1]; cbn [snd] in H1; subst w1; [|reflexivity].
  pose proof (index_pure (ch_names r) i w') as H2.
  destruct (index (ch_names r) i w') as [[nm|e] w2]; cbn [snd] in H2; subst w2; reflexivity.
Qed.

Lemma get_sources_data_same_files ica inst w :
  store (get_sources_data ica inst w).2 = store w
  /\ next (get_sources_data ica inst w).2 = next w
  /\ fs (get_sources_data ica inst w).2 = fs w.
Proof.
  unfold get_sources_data, load_ica, load_raw, load, fitted, lift, called, bind, ret, raise.
  cbn [store next fs log].
  destruct (store w !! ica) as [[| i |]|]; cbn [fst snd store next fs]; auto.
  destruct (store w !! inst) as [[r | |]|]; cbn [fst snd store next fs]; auto.
  destruct (solution i) as [s|]; cbn [fst snd store next fs]; auto.
  destruct (unmix s r); cbn [fst snd store next fs]; auto.
Qed.

Lemma plot_ica_components_renders ica raw out n_components :
  renders out (plot_ica_components ica raw out n_components).
Proof.
  unfold plot_ica_components.
  apply renders_same_files; [apply get_sources_data_same_files|]. intros sources. cbv zeta.
  apply renders_after_pure; [|intros fig; apply write_html_renders].
  intros w. apply for_each_pure. intros s i w'. unfold bind.
  pose proof (index_pure sources i w') as H1.
  destruct (index sources i w') as [[row|e] w1]; cbn [snd] in H1; subst w1; reflexivity.
Qed.

End Rendering.

Section Plots.

Context {lib : MNE}.

Lemma Qtrunc_nonneg q : (0 <= q)%Q -> (0 <= Qtrunc q)%Z.
Proof.
  destruct q as [n d]. unfold Qle, Qtrunc. cbn [Qnum Qden]. intros Hn.
  apply Z.quot_pos; lia.
Qed.

Lemma slice_to_take {A} stop (l : list A) :
  (0 <= stop)%Z -> slice_to stop l = take (Z.to_nat stop) l.
Proof. intros H. unfold slice_to. destruct (Z.leb_spec 0 stop); [reflexivity | lia]. Qed.

Lemma float64_nonneg x : (0 <= x)%Q -> (0 <= float64 x)%Q.
Proof.
  intros Hx. unfold float64. destruct (Qeq_bool x 0); [exact Hx|].
  rewrite Qred_correct.
  set (ulp := (2 ^ (Qlog2 x - 52))%Q).
  assert (Hulp : (0 < ulp)%Q) by (by apply Qpower_0_lt).
  apply Qmult_le_0_compat; [|by apply Qlt_le_weak].
  change 0%Q with (inject_Z 0). rewrite <- Zle_Qle. apply Qround_nonneg.
  apply Qle_shift_div_l; [exact Hulp|]. by rewrite Qmult_0_l.
Qed.

(** A product of numbers that are not negative is not negative in float64
    either. *)
Lemma float_mul_nonneg a b : (0 <= a)%Q -> (0 <= b)%Q -> (0 <= float_mul a b)%Q.
Proof.
  intros Ha Hb. unfold float_mul.
  apply float64_nonneg, Qmult_le_0_compat; by apply float64_nonneg.
Qed.

(** At 250.1 Hz ten seconds are 2501 samples, where the exact product of
    the float64 operands is just below 2501; at 250 Hz they are 2500. *)
Lemma float_mul_rounds :
  Qtrunc (float_mul 10 (float64 (2501 # 10))) = 2501
  /\ Qtrunc (10 * float64 (2501 # 10))%Q = 2500
  /\ float64 (float64 (2501 # 10)) = float64 (2501 # 10)
  /\ Qtrunc (float_mul 10 250) = 2500.
Proof. vm_compute. repeat split. Qed.

(** X10. With at least [n_channels] channels and a writable path, the raw-signal
    renderer writes one figure: a trace per channel among the first
    [n_channels], named after the channel, holding its samples before
    [int(duration * sfreq)], the product taken in float64, shifted up by 100
    per channel index, against the times of those samples in seconds.
    Nothing else changes. *)
Theorem raw_plot_content raw r out duration n_channels w :
  store w !! raw = Some (ORaw r) ->
  (n_channels <= length (data r))%nat ->
  (n_channels <= length (ch_names r))%nat ->
  write_error out = None ->
  (0 <= float_mul duration (sfreq r))%Q ->
  let stop := Z.to_nat (Qtrunc (float_mul duration (sfreq r))) in
  let times := map (fun k => (inject_Z (Z.of_nat k) / sfreq r)%Q)
                   (seq 0 (Nat.min stop (n_times r))) in
  exists fig,
    plot_raw_signal raw out duration n_channels w
    = (Ok tt, mkWorld (store w) (next w) (<[out := Html fig]> (fs w))
                      (log w ++ [CallWriteHtml out]))
    /\ title fig = "Raw EEG Signal (first 5 channels, 10s)"
    /\ length (traces fig) = n_channels
    /\ forall i row nm,
         (i < n_channels)%nat ->
         data r !! i = Some row ->
         ch_names r !! i = Some nm ->
         traces fig !! i
         = Some (mkScatter (Some times) (offset_by 100 i (take stop row)) "lines" nm).
Proof.
  intros Hraw Hrows Hnames Hwrite Hpos stop times.
  rewrite (plot_raw_signal_enough_channels raw r out duration n_channels w
             Hraw Hrows Hnames Hwrite).
  eexists. split; [reflexivity|]. split; [reflexivity|]. cbn [traces].
  split; [by rewrite length_map, length_seq|].
  intros i row nm Hi Hrow Hnm.
  change (map ?f ?l) with (f <$> l). rewrite list_lookup_fmap, lookup_seq_lt by exact Hi.
  cbn [fmap option_fmap option_map Nat.add]. do 2 f_equal.
  - f_equal. unfold raw_getitem. cbn [snd].
    rewrite slice_to_take by (by apply Qtrunc_nonneg). fold stop.
    subst times. change (map ?f ?l) with (f <$> l).
    by rewrite <- fmap_take, take_seq.
  - rewrite slice_to_take by (by apply Qtrunc_nonneg). fold stop.
    by rewrite (nth_lookup_Some _ _ _ _ Hrow).
  - by rewrite (nth_lookup_Some _ _ _ _ Hnm).
Qed.

(** X11. The cleaned-signal renderer has the loop of the raw-signal renderer:
    with fewer channels than [n_channels] it raises [IndexError] and nothing
    is written; with enough it writes the figure the raw-signal renderer
    would write for the same series, under its own title. *)
Theorem cleaned_plot_like_raw_plot cleaned r out duration n_channels w :
  store w !! cleaned = Some (ORaw r) ->
  ((length (data r) < n_channels)%nat ->
   plot_cleaned_signal cleaned out duration n_channels w = (Raise IndexError, w))
  /\ ((n_channels <= length (data r))%nat ->
      (n_channels <= length (ch_names r))%nat ->
      write_error out = None ->
      exists fig,
        plot_raw_signal cleaned out duration n_channels w
        = (Ok tt, mkWorld (store w) (next w) (<[out := Html fig]> (fs w))
                          (log w ++ [CallWriteHtml out]))
        /\ plot_cleaned_signal cleaned out duration n_channels w
           = (Ok tt, mkWorld (store w) (next w)
                             (<[out := Html (mkFigure (traces fig)
                                                      "Cleaned EEG Signal (first 5 channels, 10s)"
                                                      (xaxis_title fig) (yaxis_title fig))]>
                                (fs w))
                             (log w ++ [CallWriteHtml out]))).
Proof.
  intros Hraw. split.
  - intros Hfew. unfold plot_cleaned_signal, load_raw, load. unfold bind at 1.
    unfold bind at 1. rewrite Hraw. cbn [ret]. unfold bind at 1.
    rewrite plot_loop_fails; [reflexivity | lia |].
    unfold raw_getitem. cbn [fst]. rewrite length_map, length_take. lia.
  - intros Hrows Hnames Hwrite.
    rewrite (plot_raw_signal_enough_channels cleaned r out duration n_channels w
               Hraw Hrows Hnames Hwrite).
    eexists. split; [reflexivity|]. cbn [traces xaxis_title yaxis_title].
    unfold plot_cleaned_signal, load_raw, load. unfold bind at 1. unfold bind at 1.
    rewrite Hraw. cbn [ret]. unfold bind at 1.
    rewrite plot_loop_traces.
    + unfold write_html, write, called, bind. rewrite Hwrite. cbn [store next fs log app].
      match goal with
      | |- (_, mkWorld _ _ (<[_ := Html (mkFigure ?a _ _ _)]> _) _)
           = (_, mkWorld _ _ (<[_ := Html (mkFigure ?b _ _ _)]> _) _) =>
          replace a with b; [reflexivity|]
      end.
      symmetry. apply map_ext_in. intros i Hi. apply in_seq in Hi. f_equal. f_equal.
      unfold raw_getitem. cbn [fst].
      set (stop := Qtrunc (float_mul duration (sfreq r))).
      assert (Hnil : slice_to stop (@nil Q) = []).
      { unfold slice_to. destruct (0 <=? stop)%Z; by rewrite ?firstn_nil. }
      rewrite <- Hnil at 1. rewrite map_nth. f_equal.
      rewrite !nth_lookup, lookup_take_lt by lia. reflexivity.
    + unfold raw_getitem. cbn [fst]. rewrite length_map, length_take. lia.
    + lia.
Qed.

Lemma plot_ica_loop_traces (rows : matrix) count :
  forall start acc w,
    (start + count <= length rows)%nat ->
    for_each
      (fun fig i =>
         row <- index rows i ;;
         ret (fig ++ [mkScatter None (offset_by 200 i row) "lines"
                                ("ICA " +:+ pretty (i + 1)%nat)])%list)
      (seq start count) acc w
    = (Ok (acc ++ map (fun i => mkScatter None (offset_by 200 i (nth i rows [])) "lines"
                                          ("ICA " +:+ pretty (i + 1)%nat))
                      (seq start count))%list, w).
Proof.
  induction count as [|count IH]; intros start acc w Hrows.
  - cbn [seq map for_each]. by rewrite app_nil_r.
  - cbn [seq map for_each]. unfold bind at 1. unfold bind at 1. unfold index at 1.
    destruct (lookup_lt_is_Some_2 rows start ltac:(lia)) as [row Hrow].
    rewrite (nth_lookup_Some _ _ [] _ Hrow).
    match goal with
    | |- context [match ?o with Some _ => _ | None => _ end] => replace o with (Some row)
    end.
    cbn [ret]. rewrite IH by lia. by rewrite <- app_assoc.
Qed.

(** X12. The component renderer draws the sources there are: with a fitted
    decomposition and a writable path it writes [min(n_components, number of
    sources)] traces, the k-th named [ICA k] (from 1) and shifted up by 200
    per index, with no time axis; asking for more components than there are
    is no error. *)
Theorem ica_plot_content ica raw out n_components w i s r sources :
  store w !! ica = Some (OICA i) ->
  solution i = Some s ->
  store w !! raw = Some (ORaw r) ->
  unmix s r = inr sources ->
  write_error out = None ->
  let fig :=
    mkFigure
      (map (fun k => mkScatter None (offset_by 200 k (nth k sources [])) "lines"
                               ("ICA " +:+ pretty (k + 1)%nat))
           (seq 0 (Nat.min n_components (length sources))))
      "ICA Components (first 10)" "Samples" "Amplitude + offset" in
  plot_ica_components ica raw out n_components w
  = (Ok tt, mkWorld (store w) (next w) (<[out := Html fig]> (fs w))
                    (log w ++ [CallGetSources ica raw; CallWriteHtml out]))
  /\ length (traces fig) = Nat.min n_components (length sources).
Proof.
  intros Hica Hsol Hraw Hunmix Hwrite fig. split.
  - assert (Hsources : get_sources_data ica raw w
                       = (Ok sources, mkWorld (store w) (next w) (fs w)
                                              (log w ++ [CallGetSources ica raw]))).
    { unfold get_sources_data, load_ica, load_raw, load, fitted, lift, called, bind, ret.
      cbn [store next fs log]. rewrite Hica. cbn [store next fs log]. rewrite Hraw.
      cbn [store next fs log]. rewrite Hsol. cbn [store next fs log]. rewrite Hunmix.
      reflexivity. }
    unfold plot_ica_components. unfold bind at 1. rewrite Hsources. cbv zeta.
    unfold bind at 1.
    rewrite plot_ica_loop_traces by lia.
    unfold write_html, write, called, bind. rewrite Hwrite. cbn [store next fs log app].
    by rewrite <- app_assoc.
  - subst fig. cbn [traces]. by rewrite length_map, length_seq.
Qed.

End Plots.

Section ResultsPage.

Context {lib : MNE}.

Variable file_size : file -> Z.

Import App.

Lemma bind_Ok {A B} (m : M A) (k : A -> M B) w a w' :
  m w = (Ok a, w') -> bind m k w = k a w'.
Proof. intros H. unfold bind. by rewrite H. Qed.

Lemma bind_Raise {A B} (m : M A) (k : A -> M B) w e w' :
  m w = (Raise e, w') -> bind m k w = (Raise e, w').
Proof. intros H. unfold bind. by rewrite H. Qed.

Lemma try_Ok {A} (m : M A) (h : exn -> M A) w a w' :
  m w = (Ok a, w') -> try_except m h w = (Ok a, w').
Proof. intros H. unfold try_except. by rewrite H. Qed.

Lemma try_Raise {A} (m : M A) (h : exn -> M A) w e w' :
  m w = (Raise e, w') -> try_except m h w = h e w'.
Proof. intros H. unfold try_except. by rewrite H. Qed.


(** X14. On a recording with fewer than five channels the pipeline does its
    work and the page then reports an error: the raw-signal renderer raises
    [IndexError], no plot is written or announced, the count of excluded
    components is still the pipeline's, and the two exports stay on disk. *)
Theorem results_with_few_channels filename w raw cleaned ica excl r :
  let base := (Path.splitext filename).1 in
  let cleaned_fif := join OUTPUT_FOLDER (base ++ "_cleaned.fif") in
  let cleaned_csv := join OUTPUT_FOLDER (base ++ "_cleaned.csv") in
  let run := preprocess_eeg (join UPLOAD_FOLDER filename) cleaned_fif cleaned_csv
                            1 40 15 false 2 in
  (run w).1 = Ok (raw, cleaned, ica, excl) ->
  store (run w).2 !! raw = Some (ORaw r) ->
  (length (data r) < 5)%nat ->
  results file_size filename w
  = (Ok (mkPage false false false (length excl) (Some IndexError)), (run w).2)
  /\ is_Some (fs (run w).2 !! cleaned_fif)
  /\ is_Some (fs (run w).2 !! cleaned_csv).
Proof.
  intros base cleaned_fif cleaned_csv run Hok Hraw Hfew. split.
  - unfold results. cbv zeta. fold base. fold cleaned_fif cleaned_csv. fold run.
    unfold try_except.
    destruct (run w) as [[res|e] w1] eqn:Hrun; cbn [fst snd] in Hok, Hraw |- *;
      [|discriminate Hok].
    injection Hok as ->. rewrite (bind_Ok _ _ _ _ _ Hrun). cbn [fst snd].
    rewrite (bind_Raise _ _ _ _ _ (plot_raw_signal_few_channels raw r _ 10 5 w1 Hraw Hfew)).
    reflexivity.
  - exact (returned_run_has_exports (join UPLOAD_FOLDER filename) cleaned_fif cleaned_csv
             1 40 15 false 2 w _ Hok).
Qed.

Lemma startswith_prefix c s k :
  startswith c (substring 0 k s) = true -> startswith c s = true.
Proof. destruct s as [|a s], k as [|k]; cbn; try done. Qed.

Lemma startswith_app c a b :
  startswith c (a ++ b) = if (String.length a =? 0)%nat then startswith c b else startswith c a.
Proof. by destruct a. Qed.

Lemma output_path filename suffix :
  startswith "/" filename = false ->
  startswith "/" suffix = false ->
  join "output" ((Path.splitext filename).1 ++ suffix)
  = "output/" ++ (Path.splitext filename).1 ++ suffix.
Proof.
  intros Hname Hsuffix. unfold join.
  assert (Hbase : startswith "/" (Path.splitext filename).1 = false).
  { unfold Path.splitext. destruct (_ && _); cbn [fst]; [|exact Hname].
    destruct (startswith "/" (substring 0 _ filename)) eqn:E; [|reflexivity].
    apply startswith_prefix in E. congruence. }
  rewrite startswith_app, Hbase, Hsuffix. by destruct (_ =? _)%nat.
Qed.

Lemma upload_path filename :
  startswith "/" filename = false ->
  join UPLOAD_FOLDER filename = "uploads/" ++ filename.
Proof. intros H. unfold join. by rewrite H. Qed.

Lemma contains_app c a b : contains c (a ++ b) = contains c a || contains c b.
Proof. induction a as [|x a IH]; [reflexivity|]. simpl. by rewrite IH, orb_assoc. Qed.

Lemma contains_substring c s : forall n m,
  contains c (substring n m s) = true -> contains c s = true.
Proof.
  induction s as [|x s IH]; intros n m; [by destruct n, m|].
  destruct n as [|n]; [destruct m as [|m]|]; cbn [substring contains]; [done| |].
  - intros H. apply orb_true_iff in H as [->|H]; [done|].
    apply IH in H. rewrite H. by rewrite orb_true_r.
  - intros H. apply IH in H. rewrite H. by rewrite orb_true_r.
Qed.

Lemma contains_startswith c s : contains c s = false -> startswith c s = false.
Proof. destruct s as [|x s]; [done|]. simpl. by intros [-> _]%orb_false_iff. Qed.

Lemma contains_base c filename :
  contains c filename = false -> contains c (Path.splitext filename).1 = false.
Proof.
  intros H. unfold Path.splitext. destruct (_ && _); cbn [fst]; [|exact H].
  destruct (contains c (substring 0 _ filename)) eqn:E; [|reflexivity].
  apply contains_substring in E. congruence.
Qed.

(** The paths [results] hands to the pipeline and to the renderers. *)
Lemma results_frame filename w :
  startswith "/" filename = false ->
  let res := results file_size filename w in
  let base := (Path.splitext filename).1 in
  (forall p,
     p <> "output/" ++ base ++ "_cleaned.fif" ->
     p <> "output/" ++ base ++ "_cleaned.csv" ->
     p <> "output/" ++ base ++ "_raw.html" ->
     p <> "output/" ++ base ++ "_cleaned.html" ->
     p <> "output/" ++ base ++ "_ica.html" ->
     fs res.2 !! p = fs w !! p)
  /\ (forall r, (r < next w)%nat -> store res.2 !! r = store w !! r).
Proof.
  intros Hname res base.
  subst res. unfold results. cbv zeta. unfold OUTPUT_FOLDER.
  rewrite !(output_path filename) by (exact Hname || reflexivity).
  fold base.
  set (fif := "output/" ++ _ ++ "_cleaned.fif").
  set (csv := "output/" ++ _ ++ "_cleaned.csv").
  set (p1 := "output/" ++ _ ++ "_raw.html").
  set (p2 := "output/" ++ _ ++ "_cleaned.html").
  set (p3 := "output/" ++ _ ++ "_ica.html").
  unfold try_except.
  set (run := preprocess_eeg _ fif csv 1 40 15 false 2).
  destruct (run_frame (join UPLOAD_FOLDER filename) fif csv 1 40 15 false 2 w)
    as (Hfs0 & Hst0 & _). fold run in Hfs0, Hst0.
  destruct (run w) as [[res|e] w1] eqn:Hrun; cbn [snd] in Hfs0, Hst0.
  2: { rewrite (bind_Raise _ _ _ _ _ Hrun). cbn [ret fst snd]. split.
       - intros p Hfif Hcsv _ _ _. by apply Hfs0.
       - exact Hst0. }
  destruct res as [[[raw cleaned] ica] excl].
  rewrite (bind_Ok _ _ _ _ _ Hrun). cbn [fst snd].
  destruct (plot_raw_signal_renders raw p1 10 5 w1) as (Hst1 & _ & Hfs1 & _).
  destruct (plot_raw_signal raw p1 10 5 w1) as [[[]|e1] w2] eqn:E1; cbn [snd] in Hst1, Hfs1.
  2: { rewrite (bind_Raise _ _ _ _ _ E1). cbn [ret fst snd]. split.
       - intros p Hfif Hcsv H1 _ _. rewrite Hfs1 by exact H1. by apply Hfs0.
       - intros r Hr. rewrite Hst1. by apply Hst0. }
  rewrite (bind_Ok _ _ _ _ _ E1).
  destruct (plot_cleaned_signal_renders cleaned p2 10 5 w2) as (Hst2 & _ & Hfs2 & _).
  destruct (plot_cleaned_signal cleaned p2 10 5 w2) as [[[]|e2] w3] eqn:E2;
    cbn [snd] in Hst2, Hfs2.
  2: { rewrite (bind_Raise _ _ _ _ _ E2). cbn [ret fst snd]. split.
       - intros p Hfif Hcsv H1 H2 _. rewrite Hfs2, Hfs1 by assumption. by apply Hfs0.
       - intros r Hr. rewrite Hst2, Hst1. by apply Hst0. }
  rewrite (bind_Ok _ _ _ _ _ E2).
  destruct (plot_ica_components_renders ica raw p3 10 w3) as (Hst3 & _ & Hfs3 & _).
  destruct (plot_ica_components ica raw p3 10 w3) as [[[]|e3] w4] eqn:E3;
    cbn [snd] in Hst3, Hfs3.
  2: { rewrite (bind_Raise _ _ _ _ _ E3). cbn [ret fst snd]. split.
       - intros p Hfif Hcsv H1 H2 H3. rewrite Hfs3, Hfs2, Hfs1 by assumption.
         by apply Hfs0.
       - intros r Hr. rewrite Hst3, Hst2, Hst1. by apply Hst0. }
  rewrite (bind_Ok _ _ _ _ _ E3).
  unfold path_exists, getsize, read_file, bind, ret.
  destruct (bool_decide (is_Some (fs w4 !! p3))); [destruct (fs w4 !! p3)|];
    cbn [fst snd]; (split;
      [ intros p Hfif Hcsv H1 H2 H3; rewrite Hfs3, Hfs2, Hfs1 by assumption; by apply Hfs0
      | intros r Hr; rewrite Hst3, Hst2, Hst1; by apply Hst0 ]).
Qed.

(** X15. [results] writes into the output folder only.  The route hands it
    a file name without a slash; then every path other than [output/]
    followed by one of five file names, made from the base name of the
    upload, holds what it held, and such a name has no slash in it and is
    neither [.] nor [..]: the five paths name files of the folder itself.
    The uploaded file is left as it is, and so is every object that existed
    before. *)
Theorem results_writes_under_output filename w :
  contains "/" filename = false ->
  let res := results file_size filename w in
  let base := (Path.splitext filename).1 in
  let names := map (fun suffix => base ++ suffix)
                   ["_cleaned.fif"; "_cleaned.csv"; "_raw.html"; "_cleaned.html";
                    "_ica.html"] in
  (forall p, (forall name, name ∈ names -> p <> "output/" ++ name) ->
     fs res.2 !! p = fs w !! p)
  /\ Forall (fun name => contains "/" name = false /\ name <> "." /\ name <> "..") names
  /\ fs res.2 !! join UPLOAD_FOLDER filename = fs w !! join UPLOAD_FOLDER filename
  /\ (forall r, (r < next w)%nat -> store res.2 !! r = store w !! r).
Proof.
  intros Hsep res base names.
  assert (Hname : startswith "/" filename = false) by (by apply contains_startswith).
  destruct (results_frame filename w Hname) as [Hfs Hst]. fold res base in Hfs, Hst.
  split; [|split; [|split; [|exact Hst]]].
  - intros p Hp.
    apply Hfs; apply Hp; subst names; cbn [map]; rewrite !elem_of_cons; tauto.
  - assert (Hbase : contains "/" base = false) by (by apply contains_base).
    subst names. cbn [map]. repeat constructor.
    all: try (rewrite contains_app, Hbase; reflexivity).
    all: intros Heq; apply (f_equal String.length) in Heq;
      rewrite string_length_app in Heq; cbn in Heq; lia.
  - rewrite (upload_path _ Hname). apply Hfs; intros Heq; discriminate Heq.
Qed.

End ResultsPage.

(** ** The statements at concrete recordings *)

#[local] Existing Instance Sim.lib.

Lemma unsupported_extension_hard_stop_witness :
  let w := Sim.disk "uploads/notes.txt" Sim.rec4 in
  let res := preprocess_eeg (lib := Sim.lib) "uploads/notes.txt" "output/notes_cleaned.fif"
               "output/notes_cleaned.csv" 1 40 15 false 2 w in
  Path.extension "uploads/notes.txt" = ".txt"
  /\ res.1 = Raise (ValueError "Unsupported file format")
  /\ fs res.2 = fs w.
Proof.
  intros w res. split; [reflexivity|].
  destruct (unsupported_extension_hard_stop (lib := Sim.lib) "output/notes_cleaned.fif"
              "output/notes_cleaned.csv" 1 40 15 false 2 "uploads/notes.txt" w)
    as (Hraise & _ & Hfs & _).
  - vm_compute. discriminate.
  - vm_compute. discriminate.
  - split; assumption.
Defined.

Lemma extension_case_insensitive_witness :
  let w := Sim.disk "uploads/REC01.EDF" Sim.rec4 in
  Path.extension "uploads/rec01.Edf" = Path.extension "uploads/REC01.EDF"
  /\ (unsupported (preprocess_eeg (lib := Sim.lib) "uploads/rec01.Edf" "o.fif" "o.csv"
                     1 40 15 false 2 w)
      <-> unsupported (preprocess_eeg (lib := Sim.lib) "uploads/REC01.EDF" "o.fif" "o.csv"
                         1 40 15 false 2 w)).
Proof.
  intros w. split; [reflexivity|].
  apply (proj1 (extension_case_insensitive (lib := Sim.lib) "o.fif" "o.csv" 1 40 15 false 2
                  "uploads/REC01.EDF" w)).
  reflexivity.
Defined.

Lemma ica_component_count_is_min_witness :
  let w := Sim.disk "uploads/a.edf" Sim.rec4 in
  recording_at (lib := Sim.lib) "uploads/a.edf" w = Some Sim.rec4
  /\ CallICA 4 97 ∈ calls_of (preprocess_eeg (lib := Sim.lib) "uploads/a.edf" "o.fif" "o.csv"
                                1 40 15 false 2) w.
Proof.
  intros w.
  assert (Hrec : recording_at (lib := Sim.lib) "uploads/a.edf" w = Some Sim.rec4)
    by (vm_compute; reflexivity).
  split; [exact Hrec|].
  destruct (ica_component_count_is_min (lib := Sim.lib) "uploads/a.edf" "o.fif" "o.csv"
              1 40 15 false 2 w Sim.rec4 Hrec) as (_ & Hbuilt & _).
  apply (Hbuilt (map Sim.remove_mean (data Sim.rec4))). reflexivity.
Defined.

Lemma no_eog_channel_empty_exclude_witness :
  let w := Sim.disk "uploads/a.fif" Sim.rec4 in
  recording_at (lib := Sim.lib) "uploads/a.fif" w = Some Sim.rec4
  /\ Forall (fun c => kind c <> EOG) (chs Sim.rec4)
  /\ (preprocess_eeg (lib := Sim.lib) "uploads/a.fif" "o.fif" "o.csv" 1 40 15 false 2 w).1
     = Ok (0%nat, 2%nat, 1%nat, []).
Proof.
  intros w.
  assert (Hrec : recording_at (lib := Sim.lib) "uploads/a.fif" w = Some Sim.rec4)
    by (vm_compute; reflexivity).
  assert (Hnone : Forall (fun c => kind c <> EOG) (chs Sim.rec4))
    by (repeat constructor; discriminate).
  split; [exact Hrec|]. split; [exact Hnone|].
  destruct (no_eog_channel_empty_exclude (lib := Sim.lib) "uploads/a.fif" "o.fif" "o.csv"
              1 40 15 false 2 w Sim.rec4 Hrec Hnone) as (_ & _ & Hret).
  apply (Hret (map Sim.remove_mean (data Sim.rec4)) Sim.identity_fit
              (Sim.zero_rows [] (map Sim.remove_mean (data Sim.rec4)))); reflexivity.
Defined.

Lemma eog_scoring_failure_is_soft_witness :
  let w := Sim.disk "uploads/b.edf" Sim.rec_eog in
  let res := preprocess_eeg (lib := Sim.lib) "uploads/b.edf" "o.fif" "o.csv" 1 40 15 false 2 w in
  recording_at (lib := Sim.lib) "uploads/b.edf" w = Some Sim.rec_eog
  /\ pick_types_eog Sim.rec_eog = [2%nat]
  /\ eog_scores Sim.identity_fit
       (with_data Sim.rec_eog (map Sim.remove_mean (data Sim.rec_eog)))
     = inl "FloatingPointError: zero variance"
  /\ exists cleaned,
       res.1 = Ok (0%nat, cleaned, 1%nat, [])
       /\ is_Some (fs res.2 !! "o.fif")
       /\ is_Some (fs res.2 !! "o.csv").
Proof.
  intros w res.
  assert (Hrec : recording_at (lib := Sim.lib) "uploads/b.edf" w = Some Sim.rec_eog)
    by (vm_compute; reflexivity).
  assert (Hpick : pick_types_eog Sim.rec_eog = [2%nat]) by (vm_compute; reflexivity).
  assert (Hscore : eog_scores Sim.identity_fit
                     (with_data Sim.rec_eog (map Sim.remove_mean (data Sim.rec_eog)))
                   = inl "FloatingPointError: zero variance") by (vm_compute; reflexivity).
  split; [exact Hrec|]. split; [exact Hpick|]. split; [exact Hscore|].
  destruct (eog_scoring_failure_is_soft (lib := Sim.lib) "uploads/b.edf" "o.fif" "o.csv"
              1 40 15 false 2 w Sim.rec_eog (map Sim.remove_mean (data Sim.rec_eog))
              Sim.identity_fit "FloatingPointError: zero variance" Hrec)
    as (_ & _ & Hgoes_on).
  - rewrite Hpick. discriminate.
  - reflexivity.
  - reflexivity.
  - exact Hscore.
  - destruct (Hgoes_on (Sim.zero_rows [] (map Sim.remove_mean (data Sim.rec_eog))))
      as (cleaned & Hok & Hfif & Hcsv & _); [reflexivity | reflexivity | reflexivity | |].
    + discriminate.
    + exists cleaned. repeat split; assumption.
Defined.

Lemma filter_rewrites_loaded_series_witness :
  let w := Sim.disk "uploads/a.edf" Sim.rec4 in
  let res := preprocess_eeg (lib := Sim.lib) "uploads/a.edf" "o.fif" "o.csv" 1 40 15 false 2 w in
  recording_at (lib := Sim.lib) "uploads/a.edf" w = Some Sim.rec4
  /\ res.1 = Ok (0%nat, 2%nat, 1%nat, [])
  /\ exists d,
       fir_filter 1 40 Sim.rec4 = inr d
       /\ store res.2 !! 0%nat = Some (ORaw (with_data Sim.rec4 d)).
Proof.
  intros w res.
  assert (Hrec : recording_at (lib := Sim.lib) "uploads/a.edf" w = Some Sim.rec4)
    by (vm_compute; reflexivity).
  assert (Hres : res.1 = Ok (0%nat, 2%nat, 1%nat, [])) by (vm_compute; reflexivity).
  split; [exact Hrec|]. split; [exact Hres|].
  destruct (filter_rewrites_loaded_series (lib := Sim.lib) "uploads/a.edf" "o.fif" "o.csv"
              1 40 15 false 2 w Sim.rec4 Hrec 0%nat 2%nat 1%nat [] Hres)
    as (d & Hd & _ & Hstore & _).
  exists d. split; assumption.
Defined.

Lemma runs_agree_on_same_input_witness :
  let w1 := Sim.disk "uploads/a.edf" Sim.rec4 in
  let w2 := mkWorld {[ 0%nat := ORaw Sim.rec_eog ]} 5%nat
              {[ "uploads/a.edf" := FifRaw Sim.rec4; "output/old.csv" := Csv [] ]}
              [CallSave "output/old.fif"] in
  let run := preprocess_eeg (lib := Sim.lib) "uploads/a.edf" "o.fif" "o.csv" 1 40 15 false 2 in
  fs w1 !! "uploads/a.edf" = fs w2 !! "uploads/a.edf"
  /\ snapshot "o.fif" "o.csv" (run w1) = snapshot "o.fif" "o.csv" (run w2).
Proof.
  intros w1 w2 run.
  assert (Hsame : fs w1 !! "uploads/a.edf" = fs w2 !! "uploads/a.edf")
    by (vm_compute; reflexivity).
  split; [exact Hsame|].
  exact (proj1 (runs_agree_on_same_input (lib := Sim.lib) "uploads/a.edf" "o.fif" "o.csv"
                  1 40 15 false 2 w1 w2 Hsame)).
Defined.

(** ** The further statements at concrete recordings *)

Lemma continuous_export_is_cleaned_witness :
  let w := Sim.disk "uploads/a.edf" Sim.rec4 in
  let res := preprocess_eeg (lib := Sim.lib) "uploads/a.edf" "o.fif" "o.csv" 1 40 15 false 2 w in
  recording_at (lib := Sim.lib) "uploads/a.edf" w = Some Sim.rec4
  /\ res.1 = Ok (0%nat, 2%nat, 1%nat, [])
  /\ exists c,
       store res.2 !! 2%nat = Some (ORaw c)
       /\ meas_date c = None
       /\ fs res.2 !! "o.csv" = Some (Csv (map (map Num) (data c)))
       /\ fs res.2 !! "o.fif" = Some (FifRaw c).
Proof.
  intros w res.
  assert (Hrec : recording_at (lib := Sim.lib) "uploads/a.edf" w = Some Sim.rec4)
    by (vm_compute; reflexivity).
  assert (Hres : res.1 = Ok (0%nat, 2%nat, 1%nat, [])) by (vm_compute; reflexivity).
  split; [exact Hrec|]. split; [exact Hres|].
  destruct (continuous_export_is_cleaned (lib := Sim.lib) "uploads/a.edf" "o.fif" "o.csv"
              1 40 15 2 w Sim.rec4 Hrec 0%nat 2%nat 1%nat [] Hres)
    as (c & r & Hc & Hdate & _ & _ & _ & Hcsv & Hfif & _).
  exists c. split; [exact Hc|]. split; [exact Hdate|]. split; [exact Hcsv|].
  apply Hfif. discriminate.
Defined.

Lemma epoched_export_shape_witness :
  let w := Sim.disk "uploads/long.fif" Sim.rec10s in
  let res := preprocess_eeg (lib := Sim.lib) "uploads/long.fif" "o.fif" "o.csv"
               1 40 15 true 2 w in
  recording_at (lib := Sim.lib) "uploads/long.fif" w = Some Sim.rec10s
  /\ res.1 = Ok (0%nat, 3%nat, 1%nat, [])
  /\ exists e m,
       store res.2 !! 3%nat = Some (OEpochs e)
       /\ (ep_shape e).2 = 501%nat
       /\ fs res.2 !! "o.csv" = Some (Csv m)
       /\ Forall (fun row => length row = 501%nat) m.
Proof.
  intros w res.
  assert (Hrec : recording_at (lib := Sim.lib) "uploads/long.fif" w = Some Sim.rec10s)
    by (vm_compute; reflexivity).
  assert (Hres : res.1 = Ok (0%nat, 3%nat, 1%nat, [])) by (vm_compute; reflexivity).
  split; [exact Hrec|]. split; [exact Hres|].
  destruct (epoched_export_shape (lib := Sim.lib) "uploads/long.fif" "o.fif" "o.csv"
              1 40 15 2 w Sim.rec10s Hrec 0%nat 3%nat 1%nat [] Hres)
    as (e & d1 & s & d2 & m & _ & _ & He & _ & _ & _ & Hshape & _ & _ & Hcsv & _ & _ & Hrows & _).
  assert (Hcols : (ep_shape e).2 = 501%nat) by (rewrite Hshape; vm_compute; reflexivity).
  exists e, m. split; [exact He|]. split; [exact Hcols|]. split; [exact Hcsv|].
  rewrite <- Hcols. exact Hrows.
Defined.

Lemma exclude_is_scoring_result_witness :
  let w := Sim.disk "uploads/blink.edf" Sample.rec_blink in
  let res := preprocess_eeg (lib := Sim.lib) "uploads/blink.edf" "o.fif" "o.csv"
               1 40 15 false 2 w in
  recording_at (lib := Sim.lib) "uploads/blink.edf" w = Some Sample.rec_blink
  /\ pick_types_eog Sample.rec_blink = [1%nat]
  /\ eog_scores Sim.identity_fit
       (with_data Sample.rec_blink (map Sim.remove_mean (data Sample.rec_blink)))
     = inr ([1%nat], [])
  /\ res.1 = Ok (0%nat, 2%nat, 1%nat, [1%nat]).
Proof.
  intros w res.
  assert (Hrec : recording_at (lib := Sim.lib) "uploads/blink.edf" w = Some Sample.rec_blink)
    by (vm_compute; reflexivity).
  assert (Hpick : pick_types_eog Sample.rec_blink = [1%nat]) by (vm_compute; reflexivity).
  assert (Hscore : eog_scores Sim.identity_fit
                     (with_data Sample.rec_blink
                                (map Sim.remove_mean (data Sample.rec_blink)))
                   = inr ([1%nat], [])) by (vm_compute; reflexivity).
  split; [exact Hrec|]. split; [exact Hpick|]. split; [exact Hscore|].
  destruct (exclude_is_scoring_result (lib := Sim.lib) "uploads/blink.edf" "o.fif" "o.csv"
              1 40 15 false 2 w Sample.rec_blink
              (map Sim.remove_mean (data Sample.rec_blink)) Sim.identity_fit [1%nat] [] Hrec)
    as (_ & _ & Hret).
  - rewrite Hpick. discriminate.
  - reflexivity.
  - reflexivity.
  - exact Hscore.
  - apply (Hret (Sim.zero_rows [1%nat] (map Sim.remove_mean (data Sample.rec_blink))));
      reflexivity.
Defined.

Lemma failed_run_on_disk_witness :
  let w := Sim.disk "uploads/a.edf" Sim.rec4 in
  let res := preprocess_eeg (lib := Sim.lib) "uploads/a.edf" "o.fif" "" 1 40 15 false 2 w in
  res.1 = Raise (MNEError "OSError: empty path")
  /\ (fs res.2 = fs w
      \/ exists f err,
           fs res.2 = <[ "o.fif" := f ]> (fs w)
           /\ write_error "o.fif" = None
           /\ write_error "" = Some err
           /\ MNEError "OSError: empty path" = MNEError err).
Proof.
  intros w res.
  assert (Hres : res.1 = Raise (MNEError "OSError: empty path")) by (vm_compute; reflexivity).
  split; [exact Hres|].
  exact (failed_run_on_disk (lib := Sim.lib) "uploads/a.edf" "o.fif" "" 1 40 15 false 2 w
           (MNEError "OSError: empty path") Hres).
Defined.

Lemma raw_plot_content_witness :
  let w := Sample.loaded Sample.rec_odd_rate in
  exists fig tr,
    plot_raw_signal (lib := Sim.lib) 0%nat "output/a_raw.html" 10 5 w
    = (Ok tt, mkWorld (store w) (next w) (<[ "output/a_raw.html" := Html fig ]> (fs w))
                      (log w ++ [CallWriteHtml "output/a_raw.html"]))
    /\ length (traces fig) = 5%nat
    /\ traces fig !! 0%nat = Some tr
    /\ length (y tr) = 2501%nat
    /\ name tr = "CH0".
Proof.
  intros w.
  destruct (raw_plot_content (lib := Sim.lib) 0%nat Sample.rec_odd_rate
              "output/a_raw.html" 10 5 w)
    as (fig & Hrun & _ & Hlen & Htr).
  - reflexivity.
  - vm_compute. lia.
  - vm_compute. lia.
  - reflexivity.
  - vm_compute. discriminate.
  - eexists fig, _. split; [exact Hrun|]. split; [exact Hlen|].
    split; [apply (Htr 0%nat (nth 0 (data Sample.rec_odd_rate) []) "CH0");
            [lia | vm_compute; reflexivity | vm_compute; reflexivity]|].
    split; [vm_compute; reflexivity | reflexivity].
Defined.

Lemma cleaned_plot_like_raw_plot_witness :
  let w := Sample.loaded Sim.rec4 in
  store w !! 0%nat = Some (ORaw Sim.rec4)
  /\ plot_cleaned_signal (lib := Sim.lib) 0%nat "output/a_cleaned.html" 10 5 w
     = (Raise IndexError, w).
Proof.
  intros w.
  assert (Hraw : store w !! 0%nat = Some (ORaw Sim.rec4)) by reflexivity.
  split; [exact Hraw|].
  apply (proj1 (cleaned_plot_like_raw_plot (lib := Sim.lib) 0%nat Sim.rec4
                  "output/a_cleaned.html" 10 5 w Hraw)).
  vm_compute. lia.
Defined.

Lemma ica_plot_content_witness :
  let w := mkWorld {[ 0%nat := ORaw Sim.rec4;
                      1%nat := OICA (mkICA 4 97 (Some Sim.identity_fit) []) ]}
                   2%nat ∅ [] in
  exists fig,
    plot_ica_components (lib := Sim.lib) 1%nat 0%nat "output/a_ica.html" 10 w
    = (Ok tt, mkWorld (store w) (next w) (<[ "output/a_ica.html" := Html fig ]> (fs w))
                      (log w ++ [CallGetSources 1%nat 0%nat;
                                 CallWriteHtml "output/a_ica.html"]))
    /\ length (traces fig) = 4%nat.
Proof.
  intros w.
  destruct (ica_plot_content (lib := Sim.lib) 1%nat 0%nat "output/a_ica.html" 10 w
              (mkICA 4 97 (Some Sim.identity_fit) []) Sim.identity_fit Sim.rec4
              (data Sim.rec4)) as (Hrun & Hlen).
  - reflexivity.
  - reflexivity.
  - reflexivity.
  - reflexivity.
  - reflexivity.
  - eexists. split; [exact Hrun | exact Hlen].
Defined.

Lemma allow_list_and_entry_point_witness :
  let w := Sim.disk "uploads/rec.EDF" Sim.rec4 in
  App.contains "/" "rec.EDF" = false
  /\ App.allowed_file "rec.EDF" = Ok true
  /\ App.has_stem "rec.EDF" = true
  /\ ~ unsupported (preprocess_eeg (lib := Sim.lib) (App.join App.UPLOAD_FOLDER "rec.EDF")
                      "o.fif" "o.csv" 1 40 15 false 2 w).
Proof.
  intros w.
  assert (Hsep : App.contains "/" "rec.EDF" = false) by reflexivity.
  assert (Hok : App.allowed_file "rec.EDF" = Ok true) by (vm_compute; reflexivity).
  assert (Hstem : App.has_stem "rec.EDF" = true) by (vm_compute; reflexivity).
  split; [exact Hsep|]. split; [exact Hok|]. split; [exact Hstem|].
  apply (proj2 (allow_list_and_entry_point (lib := Sim.lib) "o.fif" "o.csv" 1 40 15 false 2
                  "rec.EDF" w Hsep)).
  split; [exact Hok | exact Hstem].
Defined.

Lemma cleanup_removes_only_old_files_witness :
  let res := App.cleanup_old_files 100000 Sample.folder 24 in
  res.2 !! "new.edf" = Some (App.mkEntry true 96400 true)
  /\ res.2 !! "archive" = Some (App.mkEntry false 10000 true)
  /\ res.2 !! "locked.fif" = Some (App.mkEntry true 10000 false)
  /\ "old.edf" ∈ res.1
  /\ res.2 !! "old.edf" = None.
Proof.
  intros res.
  destruct (cleanup_removes_only_old_files 100000 24 Sample.folder)
    as (Hremoved & Hkeep & _).
  fold res in Hremoved, Hkeep.
  split; [apply Hkeep; [reflexivity | right; left; vm_compute; discriminate]|].
  split; [apply Hkeep; [reflexivity | left; reflexivity]|].
  split; [apply Hkeep; [reflexivity | right; right; reflexivity]|].
  apply (Hremoved "old.edf" (App.mkEntry true 10000 true));
    [reflexivity | reflexivity | vm_compute; reflexivity | reflexivity].
Defined.


Lemma results_with_few_channels_witness :
  let w := Sim.disk "uploads/a.edf" Sim.rec4 in
  let run := preprocess_eeg (lib := Sim.lib) "uploads/a.edf" "output/a_cleaned.fif"
               "output/a_cleaned.csv" 1 40 15 false 2 in
  (run w).1 = Ok (0%nat, 2%nat, 1%nat, [])
  /\ results (lib := Sim.lib) Sample.file_size "a.edf" w
     = (Ok (mkPage false false false 0 (Some IndexError)), (run w).2)
  /\ is_Some (fs (run w).2 !! "output/a_cleaned.fif")
  /\ is_Some (fs (run w).2 !! "output/a_cleaned.csv").
Proof.
  intros w run.
  assert (Hok : (run w).1 = Ok (0%nat, 2%nat, 1%nat, [])) by (vm_compute; reflexivity).
  split; [exact Hok|].
  apply (results_with_few_channels (lib := Sim.lib) Sample.file_size "a.edf" w
           0%nat 2%nat 1%nat [] (with_data Sim.rec4 (map Sim.remove_mean (data Sim.rec4)))).
  - exact Hok.
  - vm_compute. reflexivity.
  - vm_compute. lia.
Defined.

Lemma results_writes_under_output_witness :
  let w := Sim.disk "uploads/a.edf" Sample.rec5 in
  let res := results (lib := Sim.lib) Sample.file_size "a.edf" w in
  App.contains "/" "a.edf" = false
  /\ fs res.2 !! "uploads/a.edf" = Some (FifRaw Sample.rec5)
  /\ fs res.2 !! "a_cleaned.fif" = None
  /\ App.contains "/" "a_cleaned.fif" = false.
Proof.
  intros w res.
  assert (Hname : App.contains "/" "a.edf" = false) by reflexivity.
  split; [exact Hname|].
  destruct (results_writes_under_output (lib := Sim.lib) Sample.file_size "a.edf" w Hname)
    as (Hfs & Hnames & Hup & _).
  fold res in Hfs, Hup. split; [exact Hup|]. split.
  - apply (Hfs "a_cleaned.fif"). intros name Hin.
    apply list_elem_of_In in Hin. vm_compute in Hin. intros Heq.
    destruct Hin as [<-|[<-|[<-|[<-|[<-|[]]]]]]; discriminate Heq.
  - exact (proj1 (Forall_inv Hnames)).
Defined.
